(** * The BELRISE price relay of [combined_app.py]

    A shallow embedding of the server side of the application: the
    [StockDataManager] class with its [get_stock_price] method, the
    [/ws] endpoint with its polling loop and the [/health] endpoint.

    - Python floats are IEEE 754 binary64 values, modelled by
      [spec_float]; the format specification [.2f] is written out.
    - Exceptions are values with a class; [try/except] is a combinator
      that tests [isinstance], so an exception outside the handled
      classes propagates.
    - The module-level [stock_manager] lives in the process state,
      together with the chronological list of observable events
      (library calls, frames, log records).
    - What the outside world answers (market data, clock, socket) is
      given to each operation as an explicit script.
    - [Launch] holds the rest of the Python side: [run_fastapi] with
      [int] on the port, the start-up block guarded by the session
      flag, and [get_websocket_url].
    - [Page] holds the script of the dashboard: [parseFloat], the
      handlers of the socket, [updateDisplay] and the timers, run
      under the events of the browser. *)

From Stdlib Require Import ZArith NArith List String Ascii Bool Lia.
From Stdlib Require Import Floats.SpecFloat DecimalString DecimalPos DecimalN.
Import ListNotations.
Local Open Scope string_scope.

(** ** Python floats and the [.2f] format *)

Module PyFloat.

Definition float := spec_float.

(** The literal [0.0]. *)
Definition zero : float := S754_zero false.

(** [x > y] and [x != y]. *)
Definition gt (x y : float) : bool := SFltb y x.
Definition ne (x y : float) : bool := negb (SFeqb x y).

(** [bool(x)], the test made by [if x:] on a float: [x != 0.0]. *)
Definition truthy (x : float) : bool := ne x zero.

Definition is_finite (x : float) : bool :=
  match x with
  | S754_zero _ | S754_finite _ _ _ => true
  | S754_infinity _ | S754_nan => false
  end.

(** The integer nearest to [100 * m * 2^e], ties to the even one: the
    correctly rounded conversion to two decimals. *)
Definition hundredths (m : positive) (e : Z) : N :=
  let num := (100 * Z.pos m)%Z in
  if (0 <=? e)%Z then Z.to_N (num * 2 ^ e)
  else
    let den := (2 ^ (- e))%Z in
    let q := (num / den)%Z in
    let r := (num mod den)%Z in
    match (2 * r ?= den)%Z with
    | Lt => Z.to_N q
    | Gt => Z.to_N (q + 1)
    | Eq => if Z.even q then Z.to_N q else Z.to_N (q + 1)
    end.

Definition digit (d : N) : ascii := ascii_of_N (48 + d).

Definition decimal (n : N) : string := NilEmpty.string_of_uint (N.to_uint n).

Definition two_digits (n : N) : string :=
  String (digit (n / 10)) (String (digit (n mod 10)) EmptyString).

Definition sign_prefix (s : bool) : string := if s then "-" else "".

(** A count of hundredths printed as [d...d.dd]. *)
Definition fixed2 (s : bool) (h : N) : string :=
  sign_prefix s ++ decimal (h / 100) ++ "." ++ two_digits (h mod 100).

(** [f"{x:.2f}"] *)
Definition format_2f (x : float) : string :=
  match x with
  | S754_nan => "nan"
  | S754_infinity s => sign_prefix s ++ "inf"
  | S754_zero s => fixed2 s 0
  | S754_finite s m e => fixed2 s (hundredths m e)
  end.

(** Some binary64 values, by mantissa and exponent. *)
Definition f_102_5 : float := S754_finite false 7212796278210560 (-46).
Definition f_101_25 : float := S754_finite false 7124835347988480 (-46).
Definition f_0_125 : float := S754_finite false 4503599627370496 (-55).
Definition f_0_375 : float := S754_finite false 6755399441055744 (-54).
Definition f_2_675 : float := S754_finite false 6023564501608038 (-51).
Definition f_99_999 : float := S754_finite false 7036804049022222 (-46).
Definition f_minus_0_001 : float := S754_finite true 4611686018427388 (-62).
Definition f_minus_1 : float := S754_finite true 4503599627370496 (-52).
Definition f_1e22 : float := S754_finite false 4768371582031250 21.
Definition minus_zero : float := S754_zero true.
Definition f_inf : float := S754_infinity false.
Definition t_1700000000 : float := S754_finite false 7130316800000000 (-22).
Definition t_1700000003 : float := S754_finite false 7130316812582912 (-22).

End PyFloat.
Import PyFloat.


(** ** Exceptions *)

Module Exc.

(** The exception classes that matter to the handlers of the program:
    the two that derive from [BaseException] only, and classes below
    [Exception] raised by lookups, the network, conversions and the
    socket. *)
Inductive exc_class : Type :=
| BaseException | Exception
| KeyboardInterrupt | CancelledError
| LookupError | KeyError | IndexError
| ValueError | TypeError | RuntimeError
| OSError | ConnectionError
| WebSocketDisconnect.

Definition exc_class_eqb (a b : exc_class) : bool :=
  match a, b with
  | BaseException, BaseException | Exception, Exception
  | KeyboardInterrupt, KeyboardInterrupt | CancelledError, CancelledError
  | LookupError, LookupError | KeyError, KeyError | IndexError, IndexError
  | ValueError, ValueError | TypeError, TypeError
  | RuntimeError, RuntimeError | OSError, OSError
  | ConnectionError, ConnectionError
  | WebSocketDisconnect, WebSocketDisconnect => true
  | _, _ => false
  end.

(** The direct base class. *)
Definition base (c : exc_class) : option exc_class :=
  match c with
  | BaseException => None
  | Exception | KeyboardInterrupt | CancelledError => Some BaseException
  | LookupError | ValueError | TypeError | RuntimeError | OSError
  | WebSocketDisconnect => Some Exception
  | KeyError | IndexError => Some LookupError
  | ConnectionError => Some OSError
  end.

Fixpoint issubclass_upto (depth : nat) (c k : exc_class) : bool :=
  exc_class_eqb c k ||
  match depth with
  | O => false
  | S d => match base c with
           | Some b => issubclass_upto d b k
           | None => false
           end
  end.

(** The hierarchy above has depth three. *)
Definition issubclass (c k : exc_class) : bool := issubclass_upto 3 c k.

Record exn : Type := mk_exn { exc_type : exc_class; exc_str : string }.

Definition isinstance (e : exn) (k : exc_class) : bool :=
  issubclass (exc_type e) k.

End Exc.
Import Exc.

(** ** The process: shared manager, observable events *)

(** [class StockDataManager]: the two attributes set by [__init__]. *)
Record StockDataManager : Type := mk_manager {
  current_price : option float;
  last_update : option float
}.

Inductive level : Type := DEBUG | INFO | ERROR.

(** What the process does that can be seen from outside, in the order
    it does it.  A [SendText] is recorded when [send_text] is called,
    whether the socket then accepts the frame or raises. *)
Inductive event : Type :=
| Log (lvl : level) (msg : string)
| TickerNew (symbol : string)
| History (period : string)
| Accept (ws : nat)
| SendText (ws : nat) (frame : string)
| Sleep (seconds : nat).

(** The module-level state: [stock_manager = StockDataManager()] and
    the events so far. *)
Record process : Type := mk_process {
  stock_manager : StockDataManager;
  trace : list event
}.

(** [StockDataManager.__init__] *)
Definition StockDataManager_init : StockDataManager :=
  {| current_price := None; last_update := None |}.

(** The process right after the module is loaded. *)
Definition process_start : process :=
  {| stock_manager := StockDataManager_init; trace := [] |}.

(** ** A state and exception monad *)

Inductive outcome (A : Type) : Type :=
| Return (a : A)
| Raise (e : exn).
Arguments Return {A} a.
Arguments Raise {A} e.

Definition M (A : Type) : Type := process -> outcome A * process.

Definition ret {A} (a : A) : M A := fun s => (Return a, s).

Definition raise {A} (e : exn) : M A := fun s => (Raise e, s).

Definition bind {A B} (m : M A) (k : A -> M B) : M B :=
  fun s =>
    match m s with
    | (Return a, s') => k a s'
    | (Raise e, s') => (Raise e, s')
    end.

Declare Scope py_scope.
Delimit Scope py_scope with py.
Notation "x <- m ;; k" := (bind m (fun x => k))
  (at level 100, m at next level, right associativity) : py_scope.
Notation "m ;; k" := (bind m (fun _ => k))
  (at level 100, right associativity) : py_scope.
Local Open Scope py_scope.

(** [try: body  except k1: h1  except k2: h2 ...]: the first clause whose
    class the exception is an instance of handles it; with none, it
    propagates.  What the body did to the state before raising stays. *)
Fixpoint dispatch {A} (clauses : list (exc_class * (exn -> M A))) (e : exn)
  : M A :=
  match clauses with
  | [] => raise e
  | (k, h) :: rest => if isinstance e k then h e else dispatch rest e
  end.

Definition try_except {A} (body : M A)
  (clauses : list (exc_class * (exn -> M A))) : M A :=
  fun s =>
    match body s with
    | (Return a, s') => (Return a, s')
    | (Raise e, s') => dispatch clauses e s'
    end.

(** An answer of the outside world to a call: a value or an exception. *)
Inductive ext (A : Type) : Type :=
| Ok (a : A)
| Err (e : exn).
Arguments Ok {A} a.
Arguments Err {A} e.

Definition lift {A} (r : ext A) : M A :=
  match r with
  | Ok a => ret a
  | Err e => raise e
  end.

Definition emit (ev : event) : M unit :=
  fun s => (Return tt, {| stock_manager := stock_manager s;
                          trace := trace s ++ [ev] |}).

(** A call that leaves the process: recorded, then answered. *)
Definition call {A} (ev : event) (answer : ext A) : M A :=
  emit ev ;; lift answer.

Definition logger_debug (msg : string) : M unit := emit (Log DEBUG msg).
Definition logger_info (msg : string) : M unit := emit (Log INFO msg).
Definition logger_error (msg : string) : M unit := emit (Log ERROR msg).

Definition get_manager : M StockDataManager :=
  fun s => (Return (stock_manager s), s).

Definition set_current_price (p : float) : M unit :=
  fun s => (Return tt,
            {| stock_manager :=
                 {| current_price := Some p;
                    last_update := last_update (stock_manager s) |};
               trace := trace s |}).

Definition set_last_update (t : float) : M unit :=
  fun s => (Return tt,
            {| stock_manager :=
                 {| current_price := current_price (stock_manager s);
                    last_update := Some t |};
               trace := trace s |}).

(** ** The price source: [StockDataManager.get_stock_price] *)

(** What the program looks at in the frame returned by
    [ticker.history]: its [empty] attribute, and the answer to
    [float(data['Close'][-1])], a float or the exception of the
    lookup or of the conversion. *)
Record DataFrame : Type := mk_frame {
  empty : bool;
  close_last : ext float
}.

(** The answers one call of [get_stock_price] gets: those of
    [yf.Ticker(...)] and of [ticker.history(...)], and the reading of
    the clock, which [time.time()] returns without raising. *)
Record fetch_env : Type := mk_fetch {
  yf_Ticker : ext unit;
  ticker_history : ext DataFrame;
  time_time : float
}.

(** The body of the [try] yields [Some price] at [return price], and
    [None] when it runs to its end without returning; the handler logs
    and also runs to the end; after the [try] comes [return None]. *)
Definition get_stock_price (w : fetch_env) : M (option float) :=
  try_except
    (call (TickerNew "BELRISE.NS") (yf_Ticker w) ;;
     data <- call (History "1d") (ticker_history w) ;;
     if negb (empty data) then
       price <- lift (close_last data) ;;
       set_current_price price ;;
       set_last_update (time_time w) ;;
       ret (Some price)
     else ret None)
    [(Exception,
      fun e =>
        logger_error ("Error fetching stock data: " ++ exc_str e) ;;
        ret None)].

(** ** The broadcast loop: [websocket_endpoint] *)

(** [if x:] on an [Optional[float]]. *)
Definition truthy_opt (x : option float) : bool :=
  match x with
  | None => false
  | Some v => truthy v
  end.

(** [f"{x:.2f}"] on an [Optional[float]]: [None] does not support the
    format specification. *)
Definition format_2f_opt (x : option float) : ext string :=
  match x with
  | Some v => Ok (format_2f v)
  | None =>
      Err (mk_exn TypeError
             "unsupported format string passed to NoneType.__format__")
  end.

(** The answers one round of the loop gets: those of the fetch, of
    [await websocket.send_text(...)] and of [await asyncio.sleep(3)]. *)
Record tick_env : Type := mk_tick {
  fetch : fetch_env;
  send : ext unit;
  sleep : ext unit
}.

Definition send_text (ws : nat) (frame : string) (answer : ext unit)
  : M unit :=
  call (SendText ws frame) answer.

Definition asyncio_sleep (seconds : nat) (answer : ext unit) : M unit :=
  call (Sleep seconds) answer.

(** The body of [while True:]. *)
Definition tick (ws : nat) (w : tick_env) : M unit :=
  price <- get_stock_price (fetch w) ;;
  match price with
  | Some p =>
      send_text ws (format_2f p) (send w) ;;
      logger_debug ("Sent price: " ++ format_2f p)
  | None =>
      mgr <- get_manager ;;
      if truthy_opt (current_price mgr) then
        frame <- lift (format_2f_opt (current_price mgr)) ;;
        send_text ws frame (send w)
      else
        send_text ws "0.00" (send w)
  end ;;
  asyncio_sleep 3 (sleep w).

(** A coroutine observed after finitely many rounds has either
    returned or is suspended, waiting for the next answer. *)
Inductive coroutine : Type := Done | Pending.

(** [while True: body], run for the rounds that have an answer. *)
Fixpoint while_True (body : tick_env -> M unit) (script : list tick_env)
  : M coroutine :=
  match script with
  | [] => ret Pending
  | w :: rest => body w ;; while_True body rest
  end.

(** The two [except] clauses of the endpoint, in their order. *)
Definition endpoint_clauses : list (exc_class * (exn -> M coroutine)) :=
  [(WebSocketDisconnect,
    fun _ => logger_info "WebSocket connection closed" ;; ret Done);
   (Exception,
    fun e => logger_error ("WebSocket error: " ++ exc_str e) ;; ret Done)].

Definition websocket_endpoint (ws : nat) (accept : ext unit)
  (script : list tick_env) : M coroutine :=
  call (Accept ws) accept ;;
  logger_info "WebSocket connection established" ;;
  try_except (while_True (tick ws) script) endpoint_clauses.

(** ** The status check: [health_check] *)

Inductive json : Type :=
| JNull
| JString (s : string)
| JNumber (x : float).

Definition json_of_opt (x : option float) : json :=
  match x with
  | None => JNull
  | Some v => JNumber v
  end.

(** The returned dict, in the order it is written. *)
Definition health_check : M (list (string * json)) :=
  mgr <- get_manager ;;
  ret [("status", JString "healthy");
       ("last_price", json_of_opt (current_price mgr));
       ("last_update", json_of_opt (last_update mgr))].

(** ** The route [/health]

    [@fastapi_app.get("/health")] registers the coroutine as a route of
    the application: the dict it returns is rendered as the JSON
    document of a response with status 200.  The rendering is
    [json.dumps] with [allow_nan=False], which raises [ValueError] on a
    number that is NaN or infinite; an exception of a route is answered
    with status 500 and the text [Internal Server Error].  A document
    is kept as the values it holds, not as their text. *)
Inductive response : Type :=
| JSONResponse (status_code : nat) (content : list (string * json))
| PlainTextResponse (status_code : nat) (text : string).

Definition json_compliant (j : json) : bool :=
  match j with
  | JNumber x => is_finite x
  | JNull | JString _ => true
  end.

Definition render (content : list (string * json))
  : ext (list (string * json)) :=
  if forallb (fun item => json_compliant (snd item)) content then Ok content
  else Err (mk_exn ValueError
              "Out of range float values are not JSON compliant").

Definition health_route : M response :=
  try_except
    (content <- health_check ;;
     document <- lift (render content) ;;
     ret (JSONResponse 200 document))
    [(Exception,
      fun _ => ret (PlainTextResponse 500 "Internal Server Error"))].

(** ** Several connections on one event loop *)

(** One round of a connection's loop, under the handlers of the
    endpoint: [Pending] when the round ends in the loop, [Done] when a
    handler ran and the endpoint returned. *)
Definition guarded_tick (ws : nat) (w : tick_env) : M coroutine :=
  try_except (tick ws w ;; ret Pending) endpoint_clauses.

(** The part of the endpoint before the loop. *)
Definition endpoint_open (ws : nat) (accept : ext unit) : M unit :=
  call (Accept ws) accept ;;
  logger_info "WebSocket connection established".

(** What the event loop is asked to do next: start the endpoint for a
    new socket, run the next round of a started endpoint, or answer
    [GET /health].  A round touches [stock_manager] only inside
    [get_stock_price] and in the test that follows it, and neither
    awaits; so rounds of different endpoints interleave as wholes as
    far as the manager is concerned. *)
Inductive request : Type :=
| Connect (ws : nat) (accept : ext unit)
| Resume (ws : nat) (w : tick_env)
| GetHealth.

Record server : Type := mk_server {
  proc : process;
  live : list nat
}.

Definition server_start : server :=
  {| proc := process_start; live := [] |}.

Definition is_live (ws : nat) (sv : server) : bool :=
  existsb (Nat.eqb ws) (live sv).

Definition drop (ws : nat) (l : list nat) : list nat :=
  filter (fun x => negb (Nat.eqb ws x)) l.

Definition serve1 (sv : server) (r : request) : server :=
  match r with
  | Connect ws accept =>
      if is_live ws sv then sv
      else
        match endpoint_open ws accept (proc sv) with
        | (Return _, p) => {| proc := p; live := ws :: live sv |}
        | (Raise _, p) => {| proc := p; live := live sv |}
        end
  | Resume ws w =>
      if is_live ws sv then
        match guarded_tick ws w (proc sv) with
        | (Return Pending, p) => {| proc := p; live := live sv |}
        | (_, p) => {| proc := p; live := drop ws (live sv) |}
        end
      else sv
  | GetHealth =>
      {| proc := snd (health_route (proc sv)); live := live sv |}
  end.

Definition serve (reqs : list request) (sv : server) : server :=
  fold_left serve1 reqs sv.

(** ** Reading traces and scripts *)

(** The frames passed to [send_text] on socket [ws], oldest first. *)
Fixpoint sent_on (ws : nat) (tr : list event) : list string :=
  match tr with
  | [] => []
  | SendText ws' frame :: rest =>
      if Nat.eqb ws ws' then frame :: sent_on ws rest else sent_on ws rest
  | _ :: rest => sent_on ws rest
  end.

(** All frames, whatever the socket. *)
Fixpoint frames (tr : list event) : list string :=
  match tr with
  | [] => []
  | SendText _ frame :: rest => frame :: frames rest
  | _ :: rest => frames rest
  end.

(** The number of lookups started. *)
Fixpoint fetches (tr : list event) : nat :=
  match tr with
  | [] => 0
  | TickerNew _ :: rest => S (fetches rest)
  | _ :: rest => fetches rest
  end.

(** The shape [d...d.dd], with an optional sign in front: at least one
    digit, a point, exactly two digits. *)
Definition is_digit (c : ascii) : bool :=
  (48 <=? N_of_ascii c)%N && (N_of_ascii c <=? 57)%N.

Fixpoint all_digits (s : string) : bool :=
  match s with
  | EmptyString => true
  | String c rest => is_digit c && all_digits rest
  end.

(** The digits before the first character that is not a digit, and
    what follows them. *)
Fixpoint leading_digits (s : string) : string * string :=
  match s with
  | EmptyString => (EmptyString, EmptyString)
  | String c rest =>
      if is_digit c then
        let (ds, tl) := leading_digits rest in (String c ds, tl)
      else (EmptyString, s)
  end.

Definition unsigned_two_fraction_digits (s : string) : bool :=
  match leading_digits s with
  | (String _ _, String "." (String d1 (String d2 EmptyString))) =>
      is_digit d1 && is_digit d2
  | _ => false
  end.

Definition two_fraction_digits (s : string) : bool :=
  match s with
  | String "-" rest => unsigned_two_fraction_digits rest
  | _ => unsigned_two_fraction_digits s
  end.

(** The frame of the fallback branch for a manager: the price it holds
    when that price passes the [if], the literal otherwise. *)
Definition fallback_frame (m : StockDataManager) : string :=
  match current_price m with
  | Some l => if truthy l then format_2f l else "0.00"
  | None => "0.00"
  end.

(** A frame that is a price in the format [.2f]; the literal ["0.00"]
    is one, the price being [0.0]. *)
Definition price_frame (frame : string) : Prop :=
  exists x : float, frame = format_2f x.

(** The requests of a schedule that belong to socket [ws]. *)
Definition own (ws : nat) (reqs : list request) : list request :=
  filter (fun r =>
            match r with
            | Connect ws' _ | Resume ws' _ => Nat.eqb ws ws'
            | GetHealth => false
            end) reqs.

(** The result of a fetch is decided by the answers alone. *)
Definition fetch_result (w : fetch_env) : outcome (option float) :=
  fst (get_stock_price w process_start).

Definition fetch_succeeds (w : fetch_env) (p : float) : Prop :=
  fetch_result w = Return (Some p).

Definition fetch_fails (w : fetch_env) : Prop :=
  fetch_result w = Return None.

(** A schedule in which no round of any connection fetches a price. *)
Definition finds_price (w : fetch_env) : bool :=
  match fetch_result w with
  | Return (Some _) => true
  | _ => false
  end.

Definition quiet (reqs : list request) : bool :=
  forallb (fun r =>
             match r with
             | Resume _ w => negb (finds_price (fetch w))
             | Connect _ _ | GetHealth => true
             end) reqs.

(** Every exception the answers of a fetch hold is an instance of [k]. *)
Definition ext_within {A} (k : exc_class) (r : ext A) : bool :=
  match r with
  | Ok _ => true
  | Err e => isinstance e k
  end.

Definition fetch_errors_within (k : exc_class) (w : fetch_env) : bool :=
  ext_within k (yf_Ticker w) &&
  ext_within k (ticker_history w) &&
  match ticker_history w with
  | Ok data => ext_within k (close_last data)
  | Err _ => true
  end.

(** A round in which nothing raises past the loop: the socket takes
    the frame, the sleep ends, and what the lookup may raise is an
    [Exception]. *)
Definition completes (w : tick_env) : bool :=
  match send w, sleep w with
  | Ok _, Ok _ => fetch_errors_within Exception (fetch w)
  | _, _ => false
  end.

(** The state after a list of fetches, made one after the other. *)
Definition after_fetches (ws : list fetch_env) (s : process) : process :=
  fold_left (fun s0 w => snd (get_stock_price w s0)) ws s.

(** The states the process can be in. *)
Inductive reachable : process -> Prop :=
| reach_start : reachable process_start
| reach_get_stock_price w s :
    reachable s -> reachable (snd (get_stock_price w s))
| reach_tick ws w s :
    reachable s -> reachable (snd (tick ws w s))
| reach_guarded_tick ws w s :
    reachable s -> reachable (snd (guarded_tick ws w s))
| reach_endpoint_open ws a s :
    reachable s -> reachable (snd (endpoint_open ws a s))
| reach_websocket_endpoint ws a script s :
    reachable s -> reachable (snd (websocket_endpoint ws a script s))
| reach_health_check s :
    reachable s -> reachable (snd (health_check s))
| reach_health_route s :
    reachable s -> reachable (snd (health_route s)).

(** The invariant of the manager: both attributes unset, or both set. *)
Definition price_iff_timestamp (m : StockDataManager) : Prop :=
  current_price m = None <-> last_update m = None.

(** ** Sample answers *)

Definition disconnect : exn := mk_exn WebSocketDisconnect "1001".
Definition no_network : exn := mk_exn ConnectionError "Max retries exceeded".
Definition cancelled : exn := mk_exn CancelledError "".

(** A fetch that finds a last close, at clock reading [t]. *)
Definition quote (p t : float) : fetch_env :=
  {| yf_Ticker := Ok tt;
     ticker_history := Ok {| empty := false; close_last := Ok p |};
     time_time := t |}.

(** A fetch that gets an empty frame, and one that cannot connect. *)
Definition no_data (t : float) : fetch_env :=
  {| yf_Ticker := Ok tt;
     ticker_history :=
       Ok {| empty := true;
             close_last := Err (mk_exn IndexError "index -1 is out of bounds") |};
     time_time := t |}.

Definition offline (t : float) : fetch_env :=
  {| yf_Ticker := Ok tt; ticker_history := Err no_network; time_time := t |}.

(** A round whose socket and sleep answer normally. *)
Definition round (f : fetch_env) : tick_env :=
  {| fetch := f; send := Ok tt; sleep := Ok tt |}.

(** A round whose [send_text] raises [e]. *)
Definition broken_round (f : fetch_env) (e : exn) : tick_env :=
  {| fetch := f; send := Err e; sleep := Ok tt |}.

(** The last event of a trace. *)
Definition last_event (tr : list event) : option event :=
  match rev tr with
  | [] => None
  | ev :: _ => Some ev
  end.

(** A value the rendering of a document accepts: none, or a finite
    number. *)
Definition renders (x : option float) : bool := json_compliant (json_of_opt x).

(** How a call ends on an error [e] met inside its [try]: the error is
    logged, the manager is as it was, and the result is [None]. *)
Definition caught_as_failure (w : fetch_env) (s : process) (e : exn) : Prop :=
  fst (get_stock_price w s) = Return None /\
  stock_manager (snd (get_stock_price w s)) = stock_manager s /\
  last_event (trace (snd (get_stock_price w s))) =
    Some (Log ERROR ("Error fetching stock data: " ++ exc_str e)).

(** * The launcher: environment, server thread, start-up block *)

Module Launch.

(** ** Reading the environment *)

(** [os.environ], read only: the value of a variable that is set.
    A string is the sequence of its code points, each below 256. *)
Definition environ : Type := string -> option string.

(** [os.getenv(key)] and [os.getenv(key, default)]. *)
Definition os_getenv (env : environ) (key : string) : option string :=
  env key.

Definition os_getenv_default (env : environ) (key default : string) : string :=
  match env key with
  | Some v => v
  | None => default
  end.

(** ** [int] on a string *)

(** What [int] skips before and after a numeral: the white space of
    ASCII, and of the code points above it NEL and NBSP. *)
Definition int_space (c : ascii) : bool :=
  let n := N_of_ascii c in
  ((9 <=? n)%N && (n <=? 13)%N) || (n =? 32)%N || (n =? 133)%N ||
  (n =? 160)%N.

Fixpoint lstrip (s : string) : string :=
  match s with
  | String c rest => if int_space c then lstrip rest else s
  | EmptyString => EmptyString
  end.

Fixpoint all_space (s : string) : bool :=
  match s with
  | String c rest => int_space c && all_space rest
  | EmptyString => true
  end.

Definition digit_value (c : ascii) : N := (N_of_ascii c - 48)%N.

(** The digits of a numeral in base ten, read from the left: single
    underscores may stand between two digits.  The result is the value,
    the number of digits and the rest of the string; there is none
    without a digit, or with an underscore that does not follow a digit
    or is not followed by one. *)
Fixpoint scan_digits (s : string) (after_digit : bool) (acc : N) (count : nat)
  : option (N * nat * string) :=
  match s with
  | String c rest =>
      if is_digit c then
        scan_digits rest true (10 * acc + digit_value c)%N (S count)
      else if Ascii.eqb c "_" then
        if after_digit then scan_digits rest false acc count else None
      else if after_digit then Some (acc, count, s) else None
  | EmptyString =>
      if after_digit then Some (acc, count, EmptyString) else None
  end.

(** The default of [sys.get_int_max_str_digits()]. *)
Definition int_max_str_digits : nat := 4300.

(** [repr] of a string: between single quotes, or between double quotes
    when the string holds a single quote and no double quote; the quote
    in use and the backslash are escaped, tab, line feed and carriage
    return are written with their letters, and the other code points
    that do not print (the controls below 32 and from 127 to 159, the
    no-break space and the soft hyphen) with two digits in base
    sixteen. *)
Definition double_quote : ascii := "034"%char.
Definition backslash : ascii := "092"%char.

Fixpoint contains (c : ascii) (s : string) : bool :=
  match s with
  | String d rest => Ascii.eqb c d || contains c rest
  | EmptyString => false
  end.

Definition repr_quote (s : string) : ascii :=
  if contains "'" s && negb (contains double_quote s) then double_quote
  else "'"%char.

Definition hex_digit (n : N) : ascii :=
  if (n <? 10)%N then ascii_of_N (48 + n) else ascii_of_N (87 + n).

Definition escape_x (n : N) : string :=
  String backslash
    (String "x" (String (hex_digit (n / 16)) (String (hex_digit (n mod 16))
                                                EmptyString))).

Definition escape (c : ascii) : string :=
  String backslash (String c EmptyString).

Definition repr_char (quote c : ascii) : string :=
  let n := N_of_ascii c in
  if Ascii.eqb c quote || Ascii.eqb c backslash then escape c
  else if (n =? 9)%N then escape "t"
  else if (n =? 10)%N then escape "n"
  else if (n =? 13)%N then escape "r"
  else if (n <? 32)%N || (n =? 127)%N then escape_x n
  else if (n <? 127)%N then String c EmptyString
  else if (n <? 161)%N || (n =? 173)%N then escape_x n
  else String c EmptyString.

Fixpoint repr_body (quote : ascii) (s : string) : string :=
  match s with
  | String c rest => repr_char quote c ++ repr_body quote rest
  | EmptyString => String quote EmptyString
  end.

Definition repr (s : string) : string :=
  let quote := repr_quote s in String quote (repr_body quote s).

(** The message is made with the format [%.200R]: at most 200
    characters of the [repr] of the argument. *)
Definition invalid_literal (s : string) : exn :=
  mk_exn ValueError
    ("invalid literal for int() with base 10: " ++ substring 0 200 (repr s)).

Definition too_many_digits (count : nat) : exn :=
  mk_exn ValueError
    ("Exceeds the limit (4300 digits) for integer string conversion: " ++
     "value has " ++ decimal (N.of_nat count) ++
     " digits; use sys.set_int_max_str_digits() to increase the limit").

(** [int(s)]: white space around, an optional sign, the digits.  The
    number of digits is tested as soon as they are read, before what
    follows them. *)
Definition py_int (s : string) : ext Z :=
  let body := lstrip s in
  let (negative, numeral) :=
    match body with
    | String "-" rest => (true, rest)
    | String "+" rest => (false, rest)
    | _ => (false, body)
    end in
  match scan_digits numeral false 0%N 0 with
  | Some (n, count, rest) =>
      if Nat.ltb int_max_str_digits count then Err (too_many_digits count)
      else if all_space rest then
        Ok (if negative then (- Z.of_N n)%Z else Z.of_N n)
      else Err (invalid_literal s)
  | None => Err (invalid_literal s)
  end.

(** ** State and events of the launcher *)

Inductive boot_event : Type :=
| BootLog (lvl : level) (msg : string)
| ThreadStart (target : string)
| TimeSleep (seconds : nat)
| UvicornRun (host : string) (port : Z).

(** [st.session_state] of each browser session, by the number of the
    session, and what the launcher did so far. *)
Record boot : Type := mk_boot {
  session_state : nat -> string -> option bool;
  boot_trace : list boot_event
}.

Definition boot_start : boot :=
  {| session_state := fun _ _ => None; boot_trace := [] |}.

Definition B (A : Type) : Type := boot -> outcome A * boot.

Definition b_ret {A} (a : A) : B A := fun s => (Return a, s).

Definition b_bind {A C} (m : B A) (k : A -> B C) : B C :=
  fun s =>
    match m s with
    | (Return a, s') => k a s'
    | (Raise e, s') => (Raise e, s')
    end.

Declare Scope boot_scope.
Delimit Scope boot_scope with boot.
Notation "x <- m ;; k" := (b_bind m (fun x => k))
  (at level 100, m at next level, right associativity) : boot_scope.
Notation "m ;; k" := (b_bind m (fun _ => k))
  (at level 100, right associativity) : boot_scope.
Local Open Scope boot_scope.

Definition b_lift {A} (r : ext A) : B A :=
  fun s =>
    match r with
    | Ok a => (Return a, s)
    | Err e => (Raise e, s)
    end.

Definition b_emit (ev : boot_event) : B unit :=
  fun s => (Return tt,
            {| session_state := session_state s;
               boot_trace := (boot_trace s ++ [ev])%list |}).

(** [try: body  except k: handler]. *)
Definition b_try {A} (body : B A) (k : exc_class) (handler : exn -> B A)
  : B A :=
  fun s =>
    match body s with
    | (Return a, s') => (Return a, s')
    | (Raise e, s') => if isinstance e k then handler e s' else (Raise e, s')
    end.

(** ** The server thread: [run_fastapi] *)

(** [uvicorn.run] serves until it is stopped; its answer is how it
    ends. *)
Definition run_fastapi (env : environ) (uvicorn_run : ext unit) : B unit :=
  b_try
    (port <- b_lift (py_int (os_getenv_default env "WEBSOCKET_PORT" "8501")) ;;
     b_emit (UvicornRun "0.0.0.0" port) ;;
     b_lift uvicorn_run)
    Exception
    (fun e => b_emit (BootLog ERROR ("FastAPI server error: " ++ exc_str e))).

(** ** The start-up block of the script *)

Definition session_contains (sid : nat) (key : string) : B bool :=
  fun s => (Return (match session_state s sid key with
                    | Some _ => true
                    | None => false
                    end), s).

Definition session_set (sid : nat) (key : string) (v : bool) : B unit :=
  fun s => (Return tt,
            {| session_state :=
                 fun sid' key' =>
                   if Nat.eqb sid' sid && String.eqb key' key then Some v
                   else session_state s sid' key';
               boot_trace := boot_trace s |}).

(** [if 'fastapi_started' not in st.session_state: ...], in one run of
    the script for the session [sid]. *)
Definition start_block (sid : nat) : B unit :=
  started <- session_contains sid "fastapi_started" ;;
  if negb started then
    session_set sid "fastapi_started" true ;;
    b_emit (BootLog INFO "Starting FastAPI server...") ;;
    b_emit (ThreadStart "run_fastapi") ;;
    b_emit (TimeSleep 3)
  else b_ret tt.

(** The script run once for each session of a list, in that order. *)
Fixpoint script_runs (sids : list nat) : B unit :=
  match sids with
  | [] => b_ret tt
  | sid :: rest => start_block sid ;; script_runs rest
  end.

(** ** The address given to the page: [get_websocket_url] *)

(** [if s:] on an [Optional[str]], and [f"{s}"]. *)
Definition str_truthy (x : option string) : bool :=
  match x with
  | Some (String _ _) => true
  | Some EmptyString | None => false
  end.

Definition str_format (x : option string) : string :=
  match x with
  | Some v => v
  | None => "None"
  end.

Definition get_websocket_url (env : environ) : string :=
  let railway_domain := os_getenv env "RAILWAY_PUBLIC_DOMAIN" in
  let railway_url := os_getenv env "RAILWAY_STATIC_URL" in
  if str_truthy railway_domain then
    "wss://" ++ str_format railway_domain ++ "/ws"
  else if str_truthy railway_url then
    "wss://" ++ str_format railway_url ++ "/ws"
  else
    "ws://localhost:8501/ws".

(** ** Reading boot traces *)

(** The ports [uvicorn.run] was called with, and the threads started. *)
Fixpoint ports_served (tr : list boot_event) : list Z :=
  match tr with
  | [] => []
  | UvicornRun _ port :: rest => port :: ports_served rest
  | _ :: rest => ports_served rest
  end.

Fixpoint threads_started (tr : list boot_event) : nat :=
  match tr with
  | [] => 0
  | ThreadStart _ :: rest => S (threads_started rest)
  | _ :: rest => threads_started rest
  end.

(** Whether the flag of a session is set. *)
Definition flagged_in (s : boot) (sid : nat) : bool :=
  match session_state s sid "fastapi_started" with
  | Some _ => true
  | None => false
  end.

(** An environment with the listed variables set, the first binding
    of a name counting. *)
Fixpoint environ_of (bindings : list (string * string)) : environ :=
  fun key =>
    match bindings with
    | [] => None
    | (k, v) :: rest => if String.eqb key k then Some v else environ_of rest key
    end.

End Launch.

(** * The page: the script of the dashboard *)

Module Page.

(** ** [parseFloat] *)

(** JavaScript numbers are binary64 values. *)
Definition prec : Z := 53.
Definition emax : Z := 1024.

(** The number nearest to [num / den], ties to even, with its sign. *)
Definition nearest (negative : bool) (num den : positive) : float :=
  SFdiv prec emax (S754_finite negative num 0) (S754_finite false den 0).

(** The number nearest to [mantissa * 10 ^ exponent]. *)
Definition of_decimal (negative : bool) (mantissa : N) (exponent : Z)
  : float :=
  match mantissa with
  | N0 => S754_zero negative
  | Npos m =>
      if (0 <=? exponent)%Z then
        nearest negative (m * Z.to_pos (10 ^ exponent)) 1
      else nearest negative m (Z.to_pos (10 ^ (- exponent)))
  end.

(** White space and line ends among the code points below 256. *)
Definition js_space (c : ascii) : bool :=
  let n := N_of_ascii c in
  ((9 <=? n)%N && (n <=? 13)%N) || (n =? 32)%N || (n =? 160)%N.

Fixpoint skip_space (s : string) : string :=
  match s with
  | String c rest => if js_space c then skip_space rest else s
  | EmptyString => EmptyString
  end.

(** The digits at the front of a string: the value they add to [acc],
    how many they are, and the rest. *)
Fixpoint take_digits (s : string) (acc : N) (count : nat)
  : N * nat * string :=
  match s with
  | String c rest =>
      if is_digit c then
        take_digits rest (10 * acc + Launch.digit_value c)%N (S count)
      else (acc, count, s)
  | EmptyString => (acc, count, EmptyString)
  end.

(** An exponent part is [e] or [E], an optional sign and at least one
    digit; anything else at that place is not part of the literal. *)
Definition exponent_part (s : string) : Z :=
  match s with
  | String c rest =>
      if Ascii.eqb c "e" || Ascii.eqb c "E" then
        let (negative, digits) :=
          match rest with
          | String "-" r => (true, r)
          | String "+" r => (false, r)
          | _ => (false, rest)
          end in
        let '(v, count, _) := take_digits digits 0%N 0 in
        if Nat.eqb count 0 then 0%Z
        else if negative then (- Z.of_N v)%Z else Z.of_N v
      else 0%Z
  | EmptyString => 0%Z
  end.

(** The longest decimal literal at the front of [s], as a number:
    [Infinity], or digits with an optional fraction and exponent, at
    least one digit before or after the point. *)
Definition parse_unsigned (negative : bool) (s : string) : float :=
  if String.prefix "Infinity" s then S754_infinity negative
  else
    let '(int_value, int_count, after_int) := take_digits s 0%N 0 in
    let '(mantissa, frac_count, after_frac) :=
      match after_int with
      | String "." r => take_digits r int_value 0
      | _ => (int_value, 0, after_int)
      end in
    if Nat.eqb (int_count + frac_count) 0 then S754_nan
    else
      of_decimal negative mantissa
        (exponent_part after_frac - Z.of_nat frac_count).

Definition parseFloat (s : string) : float :=
  match skip_space s with
  | String "-" rest => parse_unsigned true rest
  | String "+" rest => parse_unsigned false rest
  | t => parse_unsigned false t
  end.

Definition isNaN (x : float) : bool :=
  match x with
  | S754_nan => true
  | _ => false
  end.

(** ** The variables of the script and what it does to the page *)

Inductive js_event : Type :=
| ConsoleLog (msg : string)
| ConsoleError (msg : string)
| TableInit
| ChartInit
| NewWebSocket (url : string)
| Draw (livePrice : float) (lastPrice : option float) (now : string)
| PlotlyUpdate (x : list string) (y : list float).

(** The variables [priceData], [timeData], [lastPrice], [socket] and
    [reconnectTimer]; what the script last wrote to the status element
    ([innerHTML] and [className], as the bytes of the source text);
    the timers set and not yet fired or cleared, with their delays,
    all of them for [connectWebSocket]; the numbers of timers and of
    sockets made so far, which name them; and what the script did, in
    order.  The calls into the page and into Plotly are taken to
    return.  [Draw] stands for the writes of [updateDisplay] to the
    elements of the page, which are computed from its argument, from
    [lastPrice] and from the constants of [CONFIG]. *)
Record page : Type := mk_page {
  priceData : list float;
  timeData : list string;
  lastPrice : option float;
  socket : option nat;
  reconnectTimer : option nat;
  status : option (string * string);
  pending : list (nat * nat);
  timers_made : nat;
  sockets_made : nat;
  console : list js_event
}.

Definition page_start : page :=
  {| priceData := []; timeData := []; lastPrice := None; socket := None;
     reconnectTimer := None; status := None; pending := [];
     timers_made := 0; sockets_made := 0; console := [] |}.

Definition maxDataPoints : nat := 50.
Definition reconnectDelay : nat := 5000.

Definition log (ev : js_event) (p : page) : page :=
  {| priceData := priceData p; timeData := timeData p;
     lastPrice := lastPrice p; socket := socket p;
     reconnectTimer := reconnectTimer p; status := status p;
     pending := pending p; timers_made := timers_made p;
     sockets_made := sockets_made p;
     console := (console p ++ [ev])%list |}.

Definition set_status (html class : string) (p : page) : page :=
  {| priceData := priceData p; timeData := timeData p;
     lastPrice := lastPrice p; socket := socket p;
     reconnectTimer := reconnectTimer p; status := Some (html, class);
     pending := pending p; timers_made := timers_made p;
     sockets_made := sockets_made p; console := console p |}.

Definition set_reconnectTimer (h : option nat) (p : page) : page :=
  {| priceData := priceData p; timeData := timeData p;
     lastPrice := lastPrice p; socket := socket p;
     reconnectTimer := h; status := status p;
     pending := pending p; timers_made := timers_made p;
     sockets_made := sockets_made p; console := console p |}.

(** [setTimeout(connectWebSocket, delay)]: the new handle and the page
    with the timer pending. *)
Definition setTimeout (delay : nat) (p : page) : nat * page :=
  let h := S (timers_made p) in
  (h,
   {| priceData := priceData p; timeData := timeData p;
      lastPrice := lastPrice p; socket := socket p;
      reconnectTimer := reconnectTimer p; status := status p;
      pending := (pending p ++ [(h, delay)])%list; timers_made := h;
      sockets_made := sockets_made p; console := console p |}).

Definition without (h : nat) (l : list (nat * nat)) : list (nat * nat) :=
  filter (fun t => negb (Nat.eqb (fst t) h)) l.

Definition clearTimeout (h : nat) (p : page) : page :=
  {| priceData := priceData p; timeData := timeData p;
     lastPrice := lastPrice p; socket := socket p;
     reconnectTimer := reconnectTimer p; status := status p;
     pending := without h (pending p); timers_made := timers_made p;
     sockets_made := sockets_made p; console := console p |}.

(** [if (!reconnectTimer) { reconnectTimer = setTimeout(...) }], with
    what the branch does first. *)
Definition reconnect_if_none (before : page -> page) (p : page) : page :=
  match reconnectTimer p with
  | None =>
      let (h, p') := setTimeout reconnectDelay (before p) in
      set_reconnectTimer (Some h) p'
  | Some _ => p
  end.

(** ** The functions of the script *)

(** [updateDisplay(livePrice)], at the clock text [now]. *)
Definition updateDisplay (livePrice : float) (now : string) (p : page)
  : page :=
  let p1 := log (Draw livePrice (lastPrice p) now) p in
  let pushed_prices := (priceData p1 ++ [livePrice])%list in
  let pushed_times := (timeData p1 ++ [now])%list in
  let over := Nat.ltb maxDataPoints (List.length pushed_prices) in
  let prices := if over then tl pushed_prices else pushed_prices in
  let times := if over then tl pushed_times else pushed_times in
  {| priceData := prices; timeData := times;
     lastPrice := Some livePrice; socket := socket p1;
     reconnectTimer := reconnectTimer p1; status := status p1;
     pending := pending p1; timers_made := timers_made p1;
     sockets_made := sockets_made p1;
     console := (console p1 ++ [PlotlyUpdate times prices])%list |}.

(** [connectWebSocket()]; [created] tells whether [new WebSocket]
    returned a socket or threw. *)
Definition connectWebSocket (wsUrl : string) (created : bool) (p : page)
  : page :=
  let p1 := log (NewWebSocket wsUrl)
              (log (ConsoleLog ("Connecting to: " ++ wsUrl)) p) in
  if created then
    let k := S (sockets_made p1) in
    {| priceData := priceData p1; timeData := timeData p1;
       lastPrice := lastPrice p1; socket := Some k;
       reconnectTimer := reconnectTimer p1; status := status p1;
       pending := pending p1; timers_made := timers_made p1;
       sockets_made := k; console := console p1 |}
  else
    reconnect_if_none (fun q => q)
      (set_status "🔴 Connection Failed" "status disconnected"
         (log (ConsoleError "Failed to create WebSocket:") p1)).

Definition onopen (p : page) : page :=
  let p1 := set_status "🟢 Connected" "status connected"
              (log (ConsoleLog "WebSocket connected") p) in
  match reconnectTimer p1 with
  | Some h => set_reconnectTimer None (clearTimeout h p1)
  | None => p1
  end.

Definition onmessage (data now : string) (p : page) : page :=
  let livePrice := parseFloat data in
  if negb (isNaN livePrice) && gt livePrice zero then
    updateDisplay livePrice now p
  else p.

Definition onclose (p : page) : page :=
  reconnect_if_none
    (set_status "🟡 Reconnecting..." "status reconnecting")
    (set_status "🔴 Disconnected" "status disconnected"
       (log (ConsoleLog "WebSocket closed") p)).

Definition onerror (p : page) : page :=
  set_status "🔴 Connection Error" "status disconnected"
    (log (ConsoleError "WebSocket error:") p).

(** [init()] *)
Definition init (p : page) : page :=
  snd (setTimeout 2000 (log ChartInit (log TableInit p))).

(** The listener of [visibilitychange]; [closed] answers
    [socket.readyState === WebSocket.CLOSED]. *)
Definition onvisibilitychange (visible closed : bool) (p : page) : page :=
  if visible &&
     match socket p with
     | None => true
     | Some _ => closed
     end
  then snd (setTimeout 1000 p)
  else p.

(** ** The page under the events of the browser *)

Inductive dom_event : Type :=
| DOMContentLoaded
| Timeout (handle : nat) (created : bool)
| Open
| Message (data now : string)
| Close
| Error
| VisibilityChange (visible closed : bool).

Definition is_pending (h : nat) (p : page) : bool :=
  existsb (fun t => Nat.eqb (fst t) h) (pending p).

(** A timer fires only while it is pending, and is then spent. *)
Definition dispatch_event (wsUrl : string) (p : page) (ev : dom_event)
  : page :=
  match ev with
  | DOMContentLoaded => init p
  | Timeout h created =>
      if is_pending h p then connectWebSocket wsUrl created (clearTimeout h p)
      else p
  | Open => onopen p
  | Message data now => onmessage data now p
  | Close => onclose p
  | Error => onerror p
  | VisibilityChange visible closed => onvisibilitychange visible closed p
  end.

Definition browse (wsUrl : string) (evs : list dom_event) (p : page) : page :=
  fold_left (dispatch_event wsUrl) evs p.

(** ** Reading runs of the page *)

(** The price a frame is taken for, when it is taken for one. *)
Definition accepted (data : string) : option float :=
  let v := parseFloat data in
  if negb (isNaN v) && gt v zero then Some v else None.

(** The prices and clock texts of the frames of a run that are taken
    for prices, oldest first. *)
Fixpoint prices_of (evs : list dom_event) : list float :=
  match evs with
  | [] => []
  | Message data _ :: rest =>
      match accepted data with
      | Some v => v :: prices_of rest
      | None => prices_of rest
      end
  | _ :: rest => prices_of rest
  end.

(** What holds of the variables of the chart at all times: as many
    clock texts as prices, no more than [maxDataPoints] of them, and
    no price, kept or last seen, that is not above zero. *)
Definition chart_ok (p : page) : Prop :=
  List.length (priceData p) = List.length (timeData p) /\
  List.length (priceData p) <= maxDataPoints /\
  Forall (fun v => gt v zero = true) (priceData p) /\
  (forall v, lastPrice p = Some v -> gt v zero = true).

(** The last [n] elements of a list. *)
Definition last_n {A} (n : nat) (l : list A) : list A :=
  skipn (List.length l - n) l.

(** The sockets asked for. *)
Fixpoint attempts (tr : list js_event) : nat :=
  match tr with
  | [] => 0
  | NewWebSocket _ :: rest => S (attempts rest)
  | _ :: rest => attempts rest
  end.

(** Events that are neither an open socket nor the page becoming
    visible or being loaded. *)
Definition unopened (ev : dom_event) : bool :=
  match ev with
  | Timeout _ _ | Message _ _ | Close | Error => true
  | DOMContentLoaded | Open | VisibilityChange _ _ => false
  end.

(** What an open socket brings before it closes. *)
Definition traffic (ev : dom_event) : bool :=
  match ev with
  | Message _ _ | Error => true
  | _ => false
  end.

(** A float whose text in the format [.2f] reads as a price above
    zero: finite, positive, at least half a hundredth. *)
Definition shows_as_price (x : float) : bool :=
  match x with
  | S754_finite false m e => (0 <? hundredths m e)%N
  | _ => false
  end.

End Page.

(** * Properties *)

Local Open Scope list_scope.

Example format_102_5 : format_2f f_102_5 = "102.50".
Proof. vm_compute. reflexivity. Qed.

Example format_ties_to_even :
  format_2f f_0_125 = "0.12" /\ format_2f f_0_375 = "0.38".
Proof. split; vm_compute; reflexivity. Qed.

Example format_exact_binary_value :
  format_2f f_2_675 = "2.67" /\ format_2f f_99_999 = "100.00".
Proof. split; vm_compute; reflexivity. Qed.

Example format_negative :
  format_2f f_minus_0_001 = "-0.00" /\ format_2f f_minus_1 = "-1.00" /\
  format_2f minus_zero = "-0.00".
Proof. repeat split; vm_compute; reflexivity. Qed.

Example format_large_and_special :
  format_2f f_1e22 = "10000000000000000000000.00" /\
  format_2f (S754_infinity false) = "inf" /\ format_2f S754_nan = "nan".
Proof. repeat split; vm_compute; reflexivity. Qed.

Example format_zero : format_2f zero = "0.00".
Proof. reflexivity. Qed.

Example truthy_values :
  truthy zero = false /\ truthy minus_zero = false /\
  truthy f_102_5 = true /\ truthy S754_nan = true.
Proof. repeat split. Qed.

(** ** The scenarios of the specification *)

Example scenario_price_then_failure :
  let run := websocket_endpoint 1 (Ok tt)
               [round (quote f_102_5 t_1700000000); round (offline t_1700000003)]
               process_start in
  fst run = Return Pending /\
  sent_on 1 (trace (snd run)) = ["102.50"; "102.50"] /\
  current_price (stock_manager (snd run)) = Some f_102_5 /\
  last_update (stock_manager (snd run)) = Some t_1700000000.
Proof. vm_compute. repeat split. Qed.

Example scenario_first_fetch_fails :
  let run := websocket_endpoint 1 (Ok tt) [round (no_data t_1700000000)]
               process_start in
  sent_on 1 (trace (snd run)) = ["0.00"] /\
  stock_manager (snd run) = StockDataManager_init.
Proof. vm_compute. repeat split. Qed.

Example scenario_trace :
  trace (snd (websocket_endpoint 1 (Ok tt)
                [round (quote f_102_5 t_1700000000);
                 broken_round (offline t_1700000003) disconnect;
                 round (quote f_101_25 t_1700000003)]
                process_start))
  = [Accept 1; Log INFO "WebSocket connection established";
     TickerNew "BELRISE.NS"; History "1d"; SendText 1 "102.50";
     Log DEBUG "Sent price: 102.50"; Sleep 3;
     TickerNew "BELRISE.NS"; History "1d";
     Log ERROR "Error fetching stock data: Max retries exceeded";
     SendText 1 "102.50"; Log INFO "WebSocket connection closed"].
Proof. vm_compute. reflexivity. Qed.

(** ** The price source *)

(** Case analysis on the answers of a fetch, down to the class test of
    the handler. *)
Ltac run_fetch :=
  cbv beta iota zeta delta
    [get_stock_price try_except call bind emit lift ret raise
     set_current_price set_last_update logger_error dispatch];
  cbn [yf_Ticker ticker_history time_time empty close_last negb
       stock_manager trace current_price last_update fst snd].

Ltac fetch_cases w :=
  destruct w as [[[]|?] [[[] [?|?]]|?] ?];
  run_fetch;
  try match goal with
      | |- context [isinstance ?e Exception] =>
          destruct (isinstance e Exception) eqn:?
      end;
  run_fetch.

(** The result of a fetch does not depend on the state it starts in. *)
Lemma get_stock_price_result (w : fetch_env) (s : process) :
  fst (get_stock_price w s) = fetch_result w.
Proof. unfold fetch_result. fetch_cases w; reflexivity. Qed.

(** A successful fetch returns the last close as it is, and assigns
    both attributes. *)
Lemma get_stock_price_success (w : fetch_env) (s : process) (p : float) :
  fst (get_stock_price w s) = Return (Some p) ->
  (exists data, ticker_history w = Ok data /\ empty data = false /\
                close_last data = Ok p) /\
  stock_manager (snd (get_stock_price w s)) =
    {| current_price := Some p; last_update := Some (time_time w) |} /\
  trace (snd (get_stock_price w s)) =
    trace s ++ [TickerNew "BELRISE.NS"; History "1d"].
Proof.
  fetch_cases w; intros H; try discriminate H.
  injection H as <-. repeat split.
  - eexists; repeat split.
  - now rewrite <- app_assoc.
Qed.

(** Whatever else happens, the manager is as before. *)
Lemma get_stock_price_no_success (w : fetch_env) (s : process) :
  (forall p, fst (get_stock_price w s) <> Return (Some p)) ->
  stock_manager (snd (get_stock_price w s)) = stock_manager s.
Proof.
  fetch_cases w; intros H; try reflexivity.
  exfalso. eapply H. reflexivity.
Qed.

Lemma get_stock_price_failure (w : fetch_env) (s : process) :
  fst (get_stock_price w s) = Return None ->
  stock_manager (snd (get_stock_price w s)) = stock_manager s.
Proof.
  intros H. apply get_stock_price_no_success. intros p Hp. congruence.
Qed.

(** A fetch sends nothing. *)
Lemma sent_on_app (ws : nat) (a b : list event) :
  sent_on ws (a ++ b) = sent_on ws a ++ sent_on ws b.
Proof.
  induction a as [|ev a IH]; [reflexivity|].
  destruct ev; cbn [app sent_on]; try assumption.
  destruct (Nat.eqb ws ws0); cbn [app]; now rewrite IH.
Qed.

Lemma frames_app (a b : list event) :
  frames (a ++ b) = frames a ++ frames b.
Proof.
  induction a as [|ev a IH]; [reflexivity|].
  destruct ev; cbn [app frames]; try assumption. now rewrite IH.
Qed.

Lemma get_stock_price_frames (w : fetch_env) (s : process) :
  frames (trace (snd (get_stock_price w s))) = frames (trace s).
Proof.
  fetch_cases w; repeat rewrite frames_app; cbn [frames];
    repeat rewrite app_nil_r; reflexivity.
Qed.

Lemma get_stock_price_sent_on (ws : nat) (w : fetch_env) (s : process) :
  sent_on ws (trace (snd (get_stock_price w s))) = sent_on ws (trace s).
Proof.
  fetch_cases w; repeat rewrite sent_on_app; cbn [sent_on];
    repeat rewrite app_nil_r; reflexivity.
Qed.

(** ** One round of the loop *)

Ltac run_tick :=
  cbv beta iota zeta delta
    [send_text asyncio_sleep call bind emit lift ret raise logger_debug
     logger_info logger_error get_manager truthy_opt format_2f_opt];
  cbn [fetch send sleep stock_manager trace current_price last_update
       fst snd].

(** The three ways a fetch can end, with the state it leaves. *)
Ltac tick_cases ws w s cp :=
  unfold tick; unfold bind at 1;
  let G := fresh "G" in
  destruct (get_stock_price (fetch w) s) as [[[?|]|?] [[cp ?] ?]] eqn:G;
  cbn [fst snd stock_manager trace current_price last_update] in *.

Ltac socket_cases w :=
  destruct w as [? [[]|?] [[]|?]]; run_tick.

Ltac fallback_cases cp :=
  let l := fresh "l" in
  let T := fresh "T" in
  destruct cp as [l|]; [destruct (truthy l) eqn:T|].

Lemma sent_on_one (ws : nat) (frame : string) :
  sent_on ws [SendText ws frame] = [frame].
Proof. cbn [sent_on]. now rewrite Nat.eqb_refl. Qed.

(** A round changes the manager only through its fetch. *)
Lemma tick_manager (ws : nat) (w : tick_env) (s : process) :
  stock_manager (snd (tick ws w s)) =
  stock_manager (snd (get_stock_price (fetch w) s)).
Proof.
  tick_cases ws w s cp; try reflexivity.
  - socket_cases w; reflexivity.
  - fallback_cases cp; socket_cases w; rewrite ?T; run_tick; reflexivity.
Qed.

(** After a successful fetch the round calls [send_text] once, with the
    formatted price. *)
Lemma tick_sent_success (ws : nat) (w : tick_env) (s : process) (p : float) :
  fst (get_stock_price (fetch w) s) = Return (Some p) ->
  sent_on ws (trace (snd (tick ws w s))) =
  sent_on ws (trace s) ++ [format_2f p].
Proof.
  intros H.
  pose proof (get_stock_price_sent_on ws (fetch w) s) as F.
  revert H F. tick_cases ws w s cp; intros H F; try discriminate H.
  injection H as ->.
  socket_cases w; repeat rewrite sent_on_app; rewrite sent_on_one, F;
    cbn [sent_on]; now rewrite ?app_nil_r.
Qed.

(** After a failed fetch the round calls [send_text] once, with the
    frame of the fallback branch. *)
Lemma tick_sent_failure (ws : nat) (w : tick_env) (s : process) :
  fst (get_stock_price (fetch w) s) = Return None ->
  sent_on ws (trace (snd (tick ws w s))) =
  sent_on ws (trace s) ++ [fallback_frame (stock_manager s)].
Proof.
  intros H.
  pose proof (get_stock_price_sent_on ws (fetch w) s) as F.
  pose proof (get_stock_price_failure (fetch w) s H) as K.
  revert H F K. tick_cases ws w s cp; intros H F K; try discriminate H.
  unfold fallback_frame. rewrite <- K. cbn [current_price].
  fallback_cases cp; socket_cases w; rewrite ?T; run_tick;
    repeat rewrite sent_on_app; rewrite sent_on_one, F;
    cbn [sent_on]; now rewrite ?app_nil_r.
Qed.

(** ** The shape of a formatted price *)

Lemma is_digit_digit (d : N) : (d < 10)%N -> is_digit (digit d) = true.
Proof.
  intros H.
  assert (d = 0 \/ d = 1 \/ d = 2 \/ d = 3 \/ d = 4 \/ d = 5 \/ d = 6 \/
          d = 7 \/ d = 8 \/ d = 9)%N as D by lia.
  repeat (destruct D as [->|D]; [reflexivity|]). now subst.
Qed.

Lemma all_digits_string_of_uint (u : Decimal.uint) :
  all_digits (NilEmpty.string_of_uint u) = true.
Proof. induction u; cbn; auto. Qed.

Lemma decimal_not_empty (n : N) : decimal n <> EmptyString.
Proof.
  unfold decimal. destruct n as [|p]; [discriminate|].
  cbn [N.to_uint]. pose proof (DecimalPos.Unsigned.to_uint_nonnil p) as H.
  destruct (Pos.to_uint p); try discriminate. now elim H.
Qed.

Lemma leading_digits_point (a b : string) :
  all_digits a = true ->
  leading_digits (a ++ String "." b)%string = (a, String "." b).
Proof.
  induction a as [|c a IH]; cbn [all_digits append leading_digits].
  - reflexivity.
  - intros H. apply andb_prop in H as [-> H]. now rewrite (IH H).
Qed.

Lemma two_fraction_digits_fixed2 (s : bool) (h : N) :
  two_fraction_digits (fixed2 s h) = true.
Proof.
  assert (unsigned_two_fraction_digits
            (decimal (h / 100) ++ "." ++ two_digits (h mod 100))%string
          = true) as U.
  { unfold unsigned_two_fraction_digits.
    cbn [append]. rewrite leading_digits_point
      by apply all_digits_string_of_uint.
    pose proof (decimal_not_empty (h / 100)) as NE.
    destruct (decimal (h / 100)); [now elim NE|].
    unfold two_digits.
    rewrite !is_digit_digit; [reflexivity | |].
    - apply N.mod_lt. discriminate.
    - apply N.Div0.div_lt_upper_bound.
      pose proof (N.mod_lt h 100). lia. }
  unfold fixed2. destruct s; cbn [sign_prefix append two_fraction_digits].
  - exact U.
  - pose proof (decimal_not_empty (h / 100)) as NE.
    pose proof (all_digits_string_of_uint (N.to_uint (h / 100))) as AD.
    fold (decimal (h / 100)) in AD.
    destruct (decimal (h / 100)) as [|c r] eqn:D; [now elim NE|].
    cbn [all_digits] in AD. apply andb_prop in AD as [Hc _].
    cbn [append]. 
    assert (c <> "-"%char) as Hm by (intros ->; discriminate Hc).
    cbn [append] in U. 
    destruct c as [[] [] [] [] [] [] [] []]; try exact U. now elim Hm.
Qed.

(** A finite float is printed with exactly two digits after the point. *)
Lemma format_2f_two_fraction_digits (x : float) :
  is_finite x = true -> two_fraction_digits (format_2f x) = true.
Proof.
  destruct x; try discriminate; intros _; apply two_fraction_digits_fixed2.
Qed.

(** ** Claims about one round *)

(** The text of a float in the format [.2f] has the shape [d...d.dd]
    exactly when the float is finite. *)
Lemma format_2f_shape (x : float) :
  two_fraction_digits (format_2f x) = is_finite x.
Proof.
  destruct (is_finite x) eqn:F.
  - now apply format_2f_two_fraction_digits.
  - destruct x as [[]|[]| |[] m e]; try discriminate F; reflexivity.
Qed.

(** C2, as stated, fails: a last close of [+inf] is returned as a
    success and is greater than zero; the frame of the round is the
    text [inf], which has no fraction digits. *)
Lemma infinite_price_frame_is_inf :
  fst (get_stock_price (quote f_inf t_1700000000) process_start) =
    Return (Some f_inf) /\
  gt f_inf zero = true /\
  sent_on 1 (trace (snd (tick 1 (round (quote f_inf t_1700000000))
                           process_start))) = ["inf"%string] /\
  two_fraction_digits "inf" = false.
Proof. repeat split. Qed.

(** C2, amended.  In a round whose fetch succeeds with a price [P > 0],
    the frame passed to the client's socket is [P] in the format [.2f]
    and the manager's [current_price] becomes [P]; that frame has
    exactly two digits after the point exactly when [P] is finite, and
    for the one [P > 0] that is not, [+inf], it is the text [inf]. *)
Theorem tick_success_pushes_formatted_price
  (ws : nat) (w : tick_env) (s : process) (P : float) :
  fst (get_stock_price (fetch w) s) = Return (Some P) ->
  gt P zero = true ->
  sent_on ws (trace (snd (tick ws w s))) =
    sent_on ws (trace s) ++ [format_2f P] /\
  current_price (stock_manager (snd (tick ws w s))) = Some P /\
  two_fraction_digits (format_2f P) = is_finite P /\
  (is_finite P = false -> format_2f P = "inf"%string).
Proof.
  intros H G. split; [|split; [|split]].
  - now apply tick_sent_success.
  - rewrite tick_manager.
    destruct (get_stock_price_success _ _ _ H) as (_ & -> & _). reflexivity.
  - apply format_2f_shape.
  - destruct P as [[]|[]| |[] m e]; intros F; try discriminate F;
      try discriminate G; reflexivity.
Qed.

Lemma tick_success_pushes_formatted_price_witness :
  sent_on 1 (trace (snd (tick 1 (round (quote f_102_5 t_1700000000))
                           process_start))) =
    sent_on 1 (trace process_start) ++ [format_2f f_102_5] /\
  current_price (stock_manager
                   (snd (tick 1 (round (quote f_102_5 t_1700000000))
                           process_start))) = Some f_102_5 /\
  two_fraction_digits (format_2f f_102_5) = is_finite f_102_5 /\
  (is_finite f_102_5 = false -> format_2f f_102_5 = "inf"%string).
Proof.
  apply (tick_success_pushes_formatted_price
           1 (round (quote f_102_5 t_1700000000)) process_start f_102_5);
    reflexivity.
Defined.

(** [if x:] fails on a float exactly for the two zeros. *)
Lemma truthy_false_iff (x : float) :
  truthy x = false <-> x = zero \/ x = minus_zero.
Proof.
  split.
  - destruct x as [[]|[]| |[] ? ?]; intros H; try discriminate H; auto.
  - intros [->| ->]; reflexivity.
Qed.

(** C3, as stated, fails: after a successful fetch of [-0.0] the manager
    holds [-0.0]; in the next round the fetch fails and the frame is
    ["0.00"], while [-0.0] formatted to two decimals is ["-0.00"]. *)
Lemma fallback_of_negative_zero_is_sentinel :
  reachable (snd (tick 1 (round (quote minus_zero t_1700000000))
                    process_start)) /\
  current_price
    (stock_manager (snd (tick 1 (round (quote minus_zero t_1700000000))
                           process_start))) = Some minus_zero /\
  fst (get_stock_price (fetch (round (offline t_1700000003)))
         (snd (tick 1 (round (quote minus_zero t_1700000000))
                 process_start))) = Return None /\
  sent_on 1
    (trace (snd (tick 1 (round (offline t_1700000003))
                   (snd (tick 1 (round (quote minus_zero t_1700000000))
                           process_start))))) =
    sent_on 1 (trace (snd (tick 1 (round (quote minus_zero t_1700000000))
                             process_start))) ++ ["0.00"] /\
  format_2f minus_zero = "-0.00" /\
  "0.00" <> format_2f minus_zero.
Proof.
  split; [apply reach_tick, reach_start|].
  repeat split; try reflexivity. discriminate.
Qed.

(** C3, amended.  In a round whose fetch fails: if [current_price] holds
    a value [L] that passes [if L:] (any value but the two zeros), the
    frame is [L] in the format [.2f]; if it holds a zero, or is unset,
    the frame is ["0.00"]. *)
Theorem tick_failure_pushes_fallback
  (ws : nat) (w : tick_env) (s : process) :
  fst (get_stock_price (fetch w) s) = Return None ->
  (forall L, current_price (stock_manager s) = Some L -> truthy L = true ->
     sent_on ws (trace (snd (tick ws w s))) =
     sent_on ws (trace s) ++ [format_2f L]) /\
  (forall L, current_price (stock_manager s) = Some L ->
     L = zero \/ L = minus_zero ->
     sent_on ws (trace (snd (tick ws w s))) =
     sent_on ws (trace s) ++ ["0.00"]) /\
  (current_price (stock_manager s) = None ->
     sent_on ws (trace (snd (tick ws w s))) =
     sent_on ws (trace s) ++ ["0.00"]).
Proof.
  intros H. rewrite (tick_sent_failure ws w s H). unfold fallback_frame.
  repeat split.
  - intros L -> ->. reflexivity.
  - intros L -> Z. apply truthy_false_iff in Z. now rewrite Z.
  - intros ->. reflexivity.
Qed.

Lemma tick_failure_pushes_fallback_witness :
  sent_on 1
    (trace (snd (tick 1 (round (offline t_1700000003))
                   (snd (tick 1 (round (quote f_102_5 t_1700000000))
                           process_start))))) = ["102.50"; "102.50"] /\
  sent_on 1 (trace (snd (tick 1 (round (no_data t_1700000000))
                           process_start))) = ["0.00"].
Proof.
  split.
  - exact (proj1 (tick_failure_pushes_fallback
                    1 (round (offline t_1700000003))
                    (snd (tick 1 (round (quote f_102_5 t_1700000000))
                            process_start))
                    eq_refl)
             f_102_5 eq_refl eq_refl).
  - exact (proj2 (proj2 (tick_failure_pushes_fallback
                           1 (round (no_data t_1700000000)) process_start
                           eq_refl))
             eq_refl).
Defined.

(** ** Claims about the price source *)




(** C5.  When every error of the lookup, of the network and of the
    conversion is an instance of [Exception], a call raises nothing: it
    returns a price or [None]; and an error of the constructor, of
    [history], or of the conversion of the last close of a frame that
    is not empty, is turned into the failure result: the call logs the
    error, leaves the manager as it was and returns [None]. *)
Theorem get_stock_price_never_raises (w : fetch_env) (s : process) :
  fetch_errors_within Exception w = true ->
  (exists r : option float, fst (get_stock_price w s) = Return r) /\
  (forall e, yf_Ticker w = Err e -> caught_as_failure w s e) /\
  (forall e, yf_Ticker w = Ok tt -> ticker_history w = Err e ->
     caught_as_failure w s e) /\
  (forall data e,
     yf_Ticker w = Ok tt -> ticker_history w = Ok data ->
     empty data = false -> close_last data = Err e ->
     caught_as_failure w s e).
Proof.
  unfold fetch_errors_within, ext_within, caught_as_failure, last_event.
  fetch_cases w; intros H; cbn [andb] in H; rewrite ?andb_true_r in H;
    (split; [try (eexists; reflexivity); congruence|]);
    cbn [yf_Ticker ticker_history trace];
    (split; [|split]); intros; try discriminate;
    repeat match goal with
           | E : Err _ = Err _ |- _ => injection E as <-
           | E : Ok _ = Ok _ |- _ => injection E as <-
           end; cbn [empty close_last] in *; try discriminate;
    repeat match goal with
           | E : Err _ = Err _ |- _ => injection E as <-
           end;
    try congruence; rewrite ?rev_unit; repeat split.
Qed.

Lemma get_stock_price_never_raises_witness :
  (exists r : option float,
     fst (get_stock_price (offline t_1700000000) process_start) = Return r) /\
  caught_as_failure (offline t_1700000000) process_start no_network.
Proof.
  split.
  - exact (proj1 (get_stock_price_never_raises
                    (offline t_1700000000) process_start eq_refl)).
  - exact (proj1 (proj2 (proj2 (get_stock_price_never_raises
                                  (offline t_1700000000) process_start
                                  eq_refl)))
             no_network eq_refl eq_refl).
Defined.

(** The errors named by the claim are instances of [Exception]. *)
Lemma fetch_error_classes :
  issubclass KeyError Exception = true /\
  issubclass IndexError Exception = true /\
  issubclass ConnectionError Exception = true /\
  issubclass OSError Exception = true /\
  issubclass ValueError Exception = true /\
  issubclass TypeError Exception = true /\
  issubclass RuntimeError Exception = true.
Proof. repeat split. Qed.

(** C6.  In a round whose fetch fails, neither the fetch nor the rest
    of the round changes the manager: [current_price] and
    [last_update] are what they were. *)
Theorem failed_fetch_leaves_manager
  (ws : nat) (w : tick_env) (s : process) :
  fst (get_stock_price (fetch w) s) = Return None ->
  stock_manager (snd (get_stock_price (fetch w) s)) = stock_manager s /\
  stock_manager (snd (tick ws w s)) = stock_manager s.
Proof.
  intros H. rewrite tick_manager.
  split; now apply get_stock_price_failure.
Qed.

Lemma failed_fetch_leaves_manager_witness :
  stock_manager
    (snd (get_stock_price (fetch (round (offline t_1700000003)))
            (snd (tick 1 (round (quote f_102_5 t_1700000000))
                    process_start)))) =
    {| current_price := Some f_102_5; last_update := Some t_1700000000 |} /\
  stock_manager
    (snd (tick 1 (round (offline t_1700000003))
            (snd (tick 1 (round (quote f_102_5 t_1700000000))
                    process_start)))) =
    {| current_price := Some f_102_5; last_update := Some t_1700000000 |}.
Proof.
  apply (failed_fetch_leaves_manager
           1 (round (offline t_1700000003))
           (snd (tick 1 (round (quote f_102_5 t_1700000000)) process_start))).
  reflexivity.
Defined.

(** ** The status check *)

(** The coroutine returns the two attributes of the manager next to
    the constant status, and leaves the process as it is. *)
Lemma health_check_returns (s : process) :
  health_check s =
  (Return [("status", JString "healthy");
           ("last_price", json_of_opt (current_price (stock_manager s)));
           ("last_update", json_of_opt (last_update (stock_manager s)))],
   s).
Proof. reflexivity. Qed.

(** What the route answers is decided by the manager. *)
Lemma health_route_answer (s : process) :
  health_route s =
  (Return
     (if renders (current_price (stock_manager s)) &&
         renders (last_update (stock_manager s))
      then JSONResponse 200
             [("status", JString "healthy");
              ("last_price", json_of_opt (current_price (stock_manager s)));
              ("last_update", json_of_opt (last_update (stock_manager s)))]
      else PlainTextResponse 500 "Internal Server Error"),
   s).
Proof.
  unfold health_route, try_except, health_check, bind, get_manager, ret, lift,
    render, renders.
  cbn [forallb snd json_compliant andb].
  destruct (json_compliant (json_of_opt (current_price (stock_manager s))));
    destruct (json_compliant (json_of_opt (last_update (stock_manager s))));
    reflexivity.
Qed.




Example health_route_before_any_fetch :
  fst (health_route process_start) =
  Return (JSONResponse 200
            [("status", JString "healthy"); ("last_price", JNull);
             ("last_update", JNull)]).
Proof. reflexivity. Qed.

(** ** The handlers of the endpoint *)

(** Under the two [except] clauses a body either ends as it would
    alone, or raised and a clause logged one record and returned. *)
Lemma try_endpoint_cases (body : M coroutine) (s : process) :
  try_except body endpoint_clauses s = body s \/
  exists e lvl msg,
    fst (body s) = Raise e /\ isinstance e Exception = true /\
    try_except body endpoint_clauses s =
    (Return Done,
     {| stock_manager := stock_manager (snd (body s));
        trace := trace (snd (body s)) ++ [Log lvl msg] |}).
Proof.
  unfold try_except. destruct (body s) as [[a|e] s'] eqn:B.
  - now left.
  - cbn [dispatch endpoint_clauses].
    destruct (isinstance e WebSocketDisconnect) eqn:W.
    + right. exists e, INFO, "WebSocket connection closed".
      repeat split.
      destruct e as [c m]. destruct c; try discriminate W. reflexivity.
    + destruct (isinstance e Exception) eqn:X.
      * right. exists e, ERROR, ("WebSocket error: " ++ exc_str e)%string.
        repeat split; assumption.
      * now left.
Qed.

Lemma fetches_app (a b : list event) :
  fetches (a ++ b) = fetches a + fetches b.
Proof.
  induction a as [|ev a IH]; [reflexivity|].
  destruct ev; cbn [app fetches]; rewrite IH; reflexivity.
Qed.

Lemma try_endpoint_manager (body : M coroutine) (s : process) :
  stock_manager (snd (try_except body endpoint_clauses s)) =
  stock_manager (snd (body s)).
Proof.
  destruct (try_endpoint_cases body s) as [->|(e & l & m & _ & _ & ->)];
    reflexivity.
Qed.

Lemma try_endpoint_frames (body : M coroutine) (s : process) :
  frames (trace (snd (try_except body endpoint_clauses s))) =
  frames (trace (snd (body s))).
Proof.
  destruct (try_endpoint_cases body s) as [->|(e & l & m & _ & _ & ->)];
    [reflexivity|].
  cbn [snd trace]. rewrite frames_app. cbn [frames]. apply app_nil_r.
Qed.

Lemma try_endpoint_sent_on (ws : nat) (body : M coroutine) (s : process) :
  sent_on ws (trace (snd (try_except body endpoint_clauses s))) =
  sent_on ws (trace (snd (body s))).
Proof.
  destruct (try_endpoint_cases body s) as [->|(e & l & m & _ & _ & ->)];
    [reflexivity|].
  cbn [snd trace]. rewrite sent_on_app. cbn [sent_on]. apply app_nil_r.
Qed.

Lemma try_endpoint_fetches (body : M coroutine) (s : process) :
  fetches (trace (snd (try_except body endpoint_clauses s))) =
  fetches (trace (snd (body s))).
Proof.
  destruct (try_endpoint_cases body s) as [->|(e & l & m & _ & _ & ->)];
    [reflexivity|].
  cbn [snd trace]. rewrite fetches_app. cbn [fetches]. apply Nat.add_0_r.
Qed.

(** A body that raised does not leave the endpoint waiting. *)
Lemma try_endpoint_not_pending (body : M coroutine) (s : process) (e : exn) :
  fst (body s) = Raise e ->
  fst (try_except body endpoint_clauses s) <> Return Pending.
Proof.
  intros B.
  destruct (try_endpoint_cases body s) as [->|(e' & l & m & _ & _ & ->)].
  - rewrite B. discriminate.
  - discriminate.
Qed.

(** Before the loop nothing touches the manager, and nothing is sent. *)
Lemma endpoint_open_effect (ws : nat) (a : ext unit) (s : process) :
  stock_manager (snd (endpoint_open ws a s)) = stock_manager s /\
  frames (trace (snd (endpoint_open ws a s))) = frames (trace s) /\
  fetches (trace (snd (endpoint_open ws a s))) = fetches (trace s) /\
  forall ws', sent_on ws' (trace (snd (endpoint_open ws a s))) =
              sent_on ws' (trace s).
Proof.
  unfold endpoint_open. destruct a as [[]|e]; run_tick;
    repeat rewrite frames_app; repeat rewrite fetches_app;
    cbn [frames fetches]; rewrite ?app_nil_r, ?Nat.add_0_r;
    repeat split; intros ws'; repeat rewrite sent_on_app; cbn [sent_on];
    now rewrite ?app_nil_r.
Qed.

(** The endpoint is its opening followed by the guarded loop. *)
Lemma websocket_endpoint_unfold
  (ws : nat) (a : ext unit) (script : list tick_env) (s : process) :
  websocket_endpoint ws a script s =
  match endpoint_open ws a s with
  | (Return _, s') =>
      try_except (while_True (tick ws) script) endpoint_clauses s'
  | (Raise e, s') => (Raise e, s')
  end.
Proof.
  unfold websocket_endpoint, endpoint_open. destruct a as [[]|e]; reflexivity.
Qed.

(** ** Rounds in sequence *)

Lemma get_stock_price_fetches (w : fetch_env) (s : process) :
  fetches (trace (snd (get_stock_price w s))) = S (fetches (trace s)).
Proof.
  fetch_cases w; repeat rewrite fetches_app; cbn [fetches]; lia.
Qed.

(** A round starts one lookup. *)
Lemma tick_fetches (ws : nat) (w : tick_env) (s : process) :
  fetches (trace (snd (tick ws w s))) = S (fetches (trace s)).
Proof.
  pose proof (get_stock_price_fetches (fetch w) s) as F. revert F.
  tick_cases ws w s cp; intros F; try exact F.
  - socket_cases w; repeat rewrite fetches_app; cbn [fetches]; lia.
  - fallback_cases cp; socket_cases w; rewrite ?T; run_tick;
      repeat rewrite fetches_app; cbn [fetches]; lia.
Qed.

(** A round sends at most one frame, and that frame is a price. *)
Lemma tick_frames (ws : nat) (w : tick_env) (s : process) :
  exists new,
    frames (trace (snd (tick ws w s))) = frames (trace s) ++ new /\
    List.length new <= 1 /\ Forall price_frame new.
Proof.
  pose proof (get_stock_price_frames (fetch w) s) as F. revert F.
  tick_cases ws w s cp; intros F.
  - exists [format_2f f]. repeat split; [|auto|repeat constructor; now exists f].
    socket_cases w; repeat rewrite frames_app; cbn [frames];
      now rewrite F, ?app_nil_r.
  - fallback_cases cp.
    + exists [format_2f l].
      repeat split; [|auto|repeat constructor; now exists l].
      socket_cases w; rewrite ?T; run_tick; repeat rewrite frames_app; cbn [frames];
        now rewrite F, ?app_nil_r.
    + exists ["0.00"].
      repeat split; [|auto|repeat constructor; now exists zero].
      socket_cases w; rewrite ?T; run_tick; repeat rewrite frames_app; cbn [frames];
        now rewrite F, ?app_nil_r.
    + exists ["0.00"].
      repeat split; [|auto|repeat constructor; now exists zero].
      socket_cases w; repeat rewrite frames_app; cbn [frames];
        now rewrite F, ?app_nil_r.
  - exists []. rewrite app_nil_r. repeat split; auto.
Qed.

(** A round in which the socket or the sleep raises ends by raising. *)
Lemma tick_raises (ws : nat) (w : tick_env) (e : exn) (s : process) :
  send w = Err e \/ sleep w = Err e ->
  exists e' s', tick ws w s = (Raise e', s').
Proof.
  intros H. tick_cases ws w s cp.
  - socket_cases w; cbn [send sleep] in H; destruct H as [H|H];
      try discriminate H; eexists; eexists; reflexivity.
  - fallback_cases cp; socket_cases w; rewrite ?T; run_tick; cbn [send sleep] in H;
      destruct H as [H|H]; try discriminate H; eexists; eexists; reflexivity.
  - eexists; eexists; reflexivity.
Qed.

(** A round with a successful fetch and a socket that answers. *)
Lemma tick_completes (ws : nat) (w : tick_env) (s : process) (p : float) :
  fetch_succeeds (fetch w) p -> send w = Ok tt -> sleep w = Ok tt ->
  tick ws w s =
  (Return tt,
   {| stock_manager :=
        {| current_price := Some p;
           last_update := Some (time_time (fetch w)) |};
      trace := trace s ++
               [TickerNew "BELRISE.NS"; History "1d";
                SendText ws (format_2f p);
                Log DEBUG ("Sent price: " ++ format_2f p)%string;
                Sleep 3] |}).
Proof.
  unfold fetch_succeeds. rewrite <- (get_stock_price_result (fetch w) s).
  intros H Hs Hl.
  destruct (get_stock_price_success _ _ _ H) as (_ & Hm & Ht).
  revert H Hm Ht. tick_cases ws w s cp; intros H Hm Ht; try discriminate H.
  injection H as ->. injection Hm as -> ->. rewrite Ht.
  destruct w as [f sd sl]; cbn [send sleep fetch] in *; subst sd sl.
  run_tick. repeat rewrite <- app_assoc. reflexivity.
Qed.

(** Once a round raises, the rounds after it in the script are not
    run: the loop is the same with and without them, and it does not
    end waiting. *)
Lemma while_True_stops
  (body : tick_env -> M unit) (pre : list tick_env) (w : tick_env)
  (post : list tick_env) :
  (forall s, exists e s', body w s = (Raise e, s')) ->
  forall s,
    while_True body (pre ++ w :: post) s = while_True body (pre ++ [w]) s /\
    exists e s', while_True body (pre ++ w :: post) s = (Raise e, s').
Proof.
  intros R. induction pre as [|a pre IH]; intros s;
    cbn [app while_True]; unfold bind.
  - destruct (R s) as (e & s' & ->). split; [reflexivity|].
    now exists e, s'.
  - destruct (body a s) as [[[]|e] s1].
    + apply IH.
    + split; [reflexivity|]. now exists e, s1.
Qed.

(** The loop starts at most one lookup and sends at most one frame per
    round of its script, and every frame is a price. *)
Lemma while_True_fetches (ws : nat) (script : list tick_env) (s : process) :
  fetches (trace (snd (while_True (tick ws) script s))) <=
  fetches (trace s) + List.length script.
Proof.
  revert s. induction script as [|w script IH]; intros s;
    cbn [while_True List.length]; [cbn; lia|].
  unfold bind. pose proof (tick_fetches ws w s) as F.
  destruct (tick ws w s) as [[[]|e] s1]; cbn [snd] in *.
  - specialize (IH s1). lia.
  - lia.
Qed.

Lemma while_True_frames (ws : nat) (script : list tick_env) (s : process) :
  exists new,
    frames (trace (snd (while_True (tick ws) script s))) =
      frames (trace s) ++ new /\
    List.length new <= List.length script /\ Forall price_frame new.
Proof.
  revert s. induction script as [|w script IH]; intros s;
    cbn [while_True List.length].
  - exists []. rewrite app_nil_r. repeat split; auto.
  - unfold bind. destruct (tick_frames ws w s) as (n1 & E1 & L1 & P1).
    destruct (tick ws w s) as [[[]|e] s1]; cbn [snd] in *.
    + destruct (IH s1) as (n2 & E2 & L2 & P2).
      exists (n1 ++ n2). rewrite E2, E1, app_assoc, length_app.
      repeat split; [lia|]. now apply Forall_app.
    + exists n1. repeat split; [assumption|lia|assumption].
Qed.

(** C9.  Two rounds in a row whose fetches both succeed with the same
    price [P], the first one completing: each passes the same frame to
    the socket, [current_price] is [P] after the first and after the
    second, and when the socket also answers in the second round the
    loop goes on, nothing raised. *)
Theorem repeated_success_same_frame
  (ws : nat) (w1 w2 : tick_env) (s : process) (P : float) :
  fetch_succeeds (fetch w1) P -> fetch_succeeds (fetch w2) P ->
  send w1 = Ok tt -> sleep w1 = Ok tt ->
  sent_on ws (trace (snd (tick ws w1 s))) =
    sent_on ws (trace s) ++ [format_2f P] /\
  sent_on ws (trace (snd (while_True (tick ws) [w1; w2] s))) =
    sent_on ws (trace s) ++ [format_2f P; format_2f P] /\
  current_price (stock_manager (snd (tick ws w1 s))) = Some P /\
  current_price (stock_manager (snd (while_True (tick ws) [w1; w2] s))) =
    Some P /\
  (send w2 = Ok tt -> sleep w2 = Ok tt ->
   fst (while_True (tick ws) [w1; w2] s) = Return Pending).
Proof.
  intros H1 H2 S1 L1.
  pose proof (tick_completes ws w1 s P H1 S1 L1) as T1.
  cbn [while_True]. unfold bind at 1 3 5. rewrite T1. cbn [snd fst].
  set (s1 := {| stock_manager := _; trace := _ |}).
  assert (fst (get_stock_price (fetch w2) s1) = Return (Some P)) as G2
    by (rewrite get_stock_price_result; exact H2).
  assert (sent_on ws (trace s1) = sent_on ws (trace s) ++ [format_2f P]) as E1.
  { subst s1. cbn [trace]. rewrite sent_on_app. cbn [sent_on].
    now rewrite Nat.eqb_refl. }
  assert (forall r : outcome unit * process,
            r = tick ws w2 s1 ->
            snd (let (o, s') := r in
                 match o with
                 | Return _ => ret Pending s'
                 | Raise e => (Raise e, s')
                 end) = snd r) as K.
  { intros [[[]|e] s'] _; reflexivity. }
  unfold bind. rewrite (K _ eq_refl).
  repeat split.
  - exact E1.
  - rewrite (tick_sent_success ws w2 s1 P G2), E1, <- app_assoc. reflexivity.
  - rewrite tick_manager.
    destruct (get_stock_price_success _ _ _ G2) as (_ & -> & _). reflexivity.
  - intros S2 L2. rewrite (tick_completes ws w2 s1 P H2 S2 L2). reflexivity.
Qed.

Lemma repeated_success_same_frame_witness :
  sent_on 1 (trace (snd (tick 1 (round (quote f_102_5 t_1700000000))
                           process_start))) = ["102.50"] /\
  sent_on 1
    (trace (snd (while_True (tick 1)
                   [round (quote f_102_5 t_1700000000);
                    round (quote f_102_5 t_1700000003)] process_start))) =
    ["102.50"; "102.50"] /\
  current_price
    (stock_manager (snd (tick 1 (round (quote f_102_5 t_1700000000))
                           process_start))) = Some f_102_5 /\
  current_price
    (stock_manager
       (snd (while_True (tick 1)
               [round (quote f_102_5 t_1700000000);
                round (quote f_102_5 t_1700000003)] process_start))) =
    Some f_102_5 /\
  (send (round (quote f_102_5 t_1700000003)) = Ok tt ->
   sleep (round (quote f_102_5 t_1700000003)) = Ok tt ->
   fst (while_True (tick 1)
          [round (quote f_102_5 t_1700000000);
           round (quote f_102_5 t_1700000003)] process_start) =
   Return Pending).
Proof.
  apply (repeated_success_same_frame
           1 (round (quote f_102_5 t_1700000000))
           (round (quote f_102_5 t_1700000003)) process_start f_102_5);
    reflexivity.
Defined.

(** When [send_text] or the sleep of a round raises, the endpoint runs
    nothing of the rounds that would follow: it behaves as if the
    script ended there, it does not end waiting for another round, it
    has started at most one lookup and sent at most one frame per round
    up to that one, and every frame it sent is a price. *)
Lemma raising_round_ends_loop
  (ws : nat) (a : ext unit) (pre : list tick_env) (w : tick_env)
  (post : list tick_env) (e : exn) (s : process) :
  send w = Err e \/ sleep w = Err e ->
  websocket_endpoint ws a (pre ++ w :: post) s =
    websocket_endpoint ws a (pre ++ [w]) s /\
  fst (websocket_endpoint ws a (pre ++ w :: post) s) <> Return Pending /\
  fetches (trace (snd (websocket_endpoint ws a (pre ++ w :: post) s))) <=
    fetches (trace s) + List.length pre + 1 /\
  exists new,
    frames (trace (snd (websocket_endpoint ws a (pre ++ w :: post) s))) =
      frames (trace s) ++ new /\
    List.length new <= List.length pre + 1 /\
    Forall price_frame new.
Proof.
  intros H.
  assert (forall s0, exists e' s', tick ws w s0 = (Raise e', s')) as R
    by (intros s0; now apply (tick_raises ws w e)).
  assert (websocket_endpoint ws a (pre ++ w :: post) s =
          websocket_endpoint ws a (pre ++ [w]) s) as E.
  { rewrite !websocket_endpoint_unfold.
    destruct (endpoint_open ws a s) as [[[]|e0] s0]; [|reflexivity].
    unfold try_except.
    now rewrite (proj1 (while_True_stops (tick ws) pre w post R s0)). }
  split; [exact E|]. rewrite E. clear E.
  rewrite websocket_endpoint_unfold.
  destruct (endpoint_open_effect ws a s) as (_ & Hf & Hn & _).
  destruct (endpoint_open ws a s) as [[[]|e0] s0]; cbn [fst snd] in *.
  - split; [|split].
    + destruct (while_True_stops (tick ws) pre w [] R s0)
        as (_ & e' & s' & W).
      apply (try_endpoint_not_pending _ _ e'). now rewrite W.
    + rewrite try_endpoint_fetches.
      pose proof (while_True_fetches ws (pre ++ [w]) s0) as B.
      rewrite length_app in B. cbn [List.length] in B. lia.
    + rewrite try_endpoint_frames.
      destruct (while_True_frames ws (pre ++ [w]) s0) as (new & En & Ln & Pn).
      exists new. rewrite length_app in Ln. cbn [List.length] in Ln.
      rewrite En, Hf. repeat split; [lia|assumption].
  - split; [discriminate|]. split; [lia|].
    exists []. rewrite app_nil_r, Hf. repeat split; [cbn; lia|constructor].
Qed.

Example raising_round_ends_loop_offline :
  websocket_endpoint 1 (Ok tt)
    ([round (quote f_102_5 t_1700000000)] ++
     broken_round (offline t_1700000003) disconnect ::
     [round (quote f_101_25 t_1700000003)]) process_start =
  websocket_endpoint 1 (Ok tt)
    ([round (quote f_102_5 t_1700000000)] ++
     [broken_round (offline t_1700000003) disconnect]) process_start.
Proof.
  apply (raising_round_ends_loop
           1 (Ok tt) [round (quote f_102_5 t_1700000000)]
           (broken_round (offline t_1700000003) disconnect)
           [round (quote f_101_25 t_1700000003)] disconnect process_start).
  left. reflexivity.
Qed.

(** The two ways the endpoint ends after a failed send: a
    [WebSocketDisconnect] is logged and the endpoint returns; a
    cancellation is no [Exception] and leaves the endpoint as it is. *)
Example endpoint_after_disconnect :
  fst (websocket_endpoint 1 (Ok tt)
         [broken_round (quote f_102_5 t_1700000000) disconnect]
         process_start) = Return Done /\
  fst (websocket_endpoint 1 (Ok tt)
         [broken_round (quote f_102_5 t_1700000000) no_network]
         process_start) = Return Done /\
  fst (websocket_endpoint 1 (Ok tt)
         [broken_round (quote f_102_5 t_1700000000) cancelled]
         process_start) = Raise cancelled.
Proof. repeat split. Qed.

(** ** The invariant of the manager *)

Lemma get_stock_price_invariant (w : fetch_env) (s : process) :
  price_iff_timestamp (stock_manager s) ->
  price_iff_timestamp (stock_manager (snd (get_stock_price w s))).
Proof.
  intros I. destruct (fst (get_stock_price w s)) as [[p|]|e] eqn:G.
  - destruct (get_stock_price_success _ _ _ G) as (_ & -> & _).
    split; discriminate.
  - now rewrite get_stock_price_failure.
  - rewrite get_stock_price_no_success; [assumption|].
    intros p Hp. congruence.
Qed.

Lemma tick_invariant (ws : nat) (w : tick_env) (s : process) :
  price_iff_timestamp (stock_manager s) ->
  price_iff_timestamp (stock_manager (snd (tick ws w s))).
Proof. rewrite tick_manager. apply get_stock_price_invariant. Qed.

Lemma guarded_tick_manager (ws : nat) (w : tick_env) (s : process) :
  stock_manager (snd (guarded_tick ws w s)) =
  stock_manager (snd (get_stock_price (fetch w) s)).
Proof.
  unfold guarded_tick. rewrite try_endpoint_manager, <- (tick_manager ws).
  unfold bind. now destruct (tick ws w s) as [[[]|e] s'].
Qed.

Lemma while_True_invariant (ws : nat) (script : list tick_env) (s : process) :
  price_iff_timestamp (stock_manager s) ->
  price_iff_timestamp (stock_manager (snd (while_True (tick ws) script s))).
Proof.
  revert s. induction script as [|w script IH]; intros s I;
    cbn [while_True]; [exact I|].
  unfold bind. pose proof (tick_invariant ws w s I) as T.
  destruct (tick ws w s) as [[[]|e] s']; cbn [snd] in *; auto.
Qed.

Lemma websocket_endpoint_invariant
  (ws : nat) (a : ext unit) (script : list tick_env) (s : process) :
  price_iff_timestamp (stock_manager s) ->
  price_iff_timestamp (stock_manager (snd (websocket_endpoint ws a script s))).
Proof.
  intros I. rewrite websocket_endpoint_unfold.
  destruct (endpoint_open_effect ws a s) as (Hm & _).
  destruct (endpoint_open ws a s) as [[[]|e] s']; cbn [snd] in *.
  - rewrite try_endpoint_manager. apply while_True_invariant. now rewrite Hm.
  - now rewrite Hm.
Qed.

(** C10.  In every state the process can reach, [current_price] is
    unset exactly when [last_update] is unset: [__init__] unsets both,
    a successful fetch sets both, and nothing else assigns either. *)
Theorem reachable_price_iff_timestamp (s : process) :
  reachable s ->
  current_price (stock_manager s) = None <->
  last_update (stock_manager s) = None.
Proof.
  intros R. change (price_iff_timestamp (stock_manager s)).
  induction R.
  - split; reflexivity.
  - now apply get_stock_price_invariant.
  - now apply tick_invariant.
  - rewrite guarded_tick_manager. now apply get_stock_price_invariant.
  - destruct (endpoint_open_effect ws a s) as (-> & _). assumption.
  - now apply websocket_endpoint_invariant.
  - assumption.
  - now rewrite health_route_answer.
Qed.

Lemma reachable_price_iff_timestamp_witness :
  current_price
    (stock_manager
       (snd (websocket_endpoint 1 (Ok tt)
               [round (quote f_102_5 t_1700000000);
                broken_round (offline t_1700000003) disconnect]
               process_start))) = None <->
  last_update
    (stock_manager
       (snd (websocket_endpoint 1 (Ok tt)
               [round (quote f_102_5 t_1700000000);
                broken_round (offline t_1700000003) disconnect]
               process_start))) = None.
Proof.
  apply (reachable_price_iff_timestamp
           (snd (websocket_endpoint 1 (Ok tt)
                   [round (quote f_102_5 t_1700000000);
                    broken_round (offline t_1700000003) disconnect]
                   process_start))).
  apply reach_websocket_endpoint, reach_start.
Defined.

(** ** Several connections *)

Lemma is_live_drop (ws : nat) (sv : server) (p : process) :
  is_live ws {| proc := p; live := drop ws (live sv) |} = false.
Proof.
  unfold is_live, drop. cbn [live].
  induction (live sv) as [|x l IH]; [reflexivity|].
  cbn [filter]. destruct (Nat.eqb ws x) eqn:E; cbn [negb]; [exact IH|].
  cbn [existsb]. now rewrite E.
Qed.

(** Rounds asked of an endpoint that is not running do nothing. *)
Lemma serve_not_live (ws : nat) (script : list tick_env) (sv : server) :
  is_live ws sv = false ->
  serve (map (Resume ws) script) sv = sv.
Proof.
  intros D. induction script as [|w script IH]; [reflexivity|].
  cbn [map serve fold_left serve1]. rewrite D. exact IH.
Qed.

(** The rounds of one connection, served one by one, are the guarded
    loop of the endpoint. *)
Lemma serve_rounds (ws : nat) (script : list tick_env) (sv : server) :
  is_live ws sv = true ->
  proc (serve (map (Resume ws) script) sv) =
  snd (try_except (while_True (tick ws) script) endpoint_clauses (proc sv)).
Proof.
  revert sv. induction script as [|w script IH]; intros sv L.
  - reflexivity.
  - cbn [map serve fold_left serve1]. rewrite L.
    unfold guarded_tick, try_except. cbn [while_True]. unfold bind.
    destruct (tick ws w (proc sv)) as [[[]|e] s1].
    + cbn [ret]. fold (serve (map (Resume ws) script)).
      rewrite IH by exact L. reflexivity.
    + fold (serve (map (Resume ws) script)).
      assert (forall r : outcome coroutine * process,
                r = dispatch endpoint_clauses e s1 ->
                fst r <> Return Pending) as NP.
      { intros r ->. cbn [dispatch endpoint_clauses].
        destruct (isinstance e WebSocketDisconnect);
          [discriminate|destruct (isinstance e Exception); discriminate]. }
      specialize (NP _ eq_refl).
      destruct (dispatch endpoint_clauses e s1) as [[[]|e'] s2];
        cbn [fst snd] in *; try (now elim NP);
        rewrite serve_not_live by apply is_live_drop; reflexivity.
Qed.

(** One connection on the server is the endpoint run alone. *)
Lemma serve_single_connection
  (ws : nat) (a : ext unit) (script : list tick_env) :
  proc (serve (Connect ws a :: map (Resume ws) script) server_start) =
  snd (websocket_endpoint ws a script process_start).
Proof.
  rewrite websocket_endpoint_unfold.
  cbn [serve fold_left serve1 is_live existsb live server_start proc].
  fold (serve (map (Resume ws) script)).
  destruct (endpoint_open ws a process_start) as [[[]|e] s1].
  - rewrite serve_rounds; [reflexivity|].
    unfold is_live. cbn [live existsb]. now rewrite Nat.eqb_refl.
  - now rewrite serve_not_live.
Qed.

Lemma serve1_resume_proc (ws : nat) (w : tick_env) (sv : server) :
  is_live ws sv = true ->
  proc (serve1 sv (Resume ws w)) = snd (guarded_tick ws w (proc sv)).
Proof.
  intros L. cbn [serve1]. rewrite L.
  now destruct (guarded_tick ws w (proc sv)) as [[[]|e] s'].
Qed.

(** Only a round that fetches a price changes the manager: opening a
    connection, ending one, a failed fetch and the status check all
    leave it as it is. *)
Lemma serve1_quiet_manager (r : request) (sv : server) :
  quiet [r] = true ->
  stock_manager (proc (serve1 sv r)) = stock_manager (proc sv).
Proof.
  intros Q. destruct r as [ws a|ws w|]; cbn [serve1].
  - destruct (is_live ws sv); [reflexivity|].
    destruct (endpoint_open_effect ws a (proc sv)) as (Hm & _).
    now destruct (endpoint_open ws a (proc sv)) as [[[]|e] s'].
  - destruct (is_live ws sv) eqn:L; [|reflexivity].
    pose proof (serve1_resume_proc ws w sv L) as E.
    cbn [serve1] in E. rewrite L in E. rewrite E, guarded_tick_manager.
    apply get_stock_price_no_success. intros p Hp.
    rewrite get_stock_price_result in Hp.
    cbn [quiet forallb] in Q. unfold finds_price in Q.
    rewrite Hp in Q. discriminate Q.
  - now rewrite health_route_answer.
Qed.

Lemma serve_quiet_manager (reqs : list request) (sv : server) :
  quiet reqs = true ->
  stock_manager (proc (serve reqs sv)) = stock_manager (proc sv).
Proof.
  revert sv. induction reqs as [|r reqs IH]; intros sv Q; [reflexivity|].
  cbn [quiet forallb] in Q. apply andb_prop in Q as [Q1 Q2].
  cbn [serve fold_left]. fold (serve reqs (serve1 sv r)).
  rewrite IH by exact Q2. apply serve1_quiet_manager.
  cbn [quiet forallb]. now rewrite Q1.
Qed.

(** C1, as stated, fails.  Two schedules give connection 2 the same
    requests and answers, and differ only in what the fetch of
    connection 1 finds; the frames on connection 2 differ.  And a
    connection opened after connection 1 has ended starts with the
    price connection 1 fetched, not with an empty one. *)
Lemma second_connection_sees_first :
  own 2 [Connect 1 (Ok tt); Resume 1 (round (quote f_102_5 t_1700000000));
         Connect 2 (Ok tt); Resume 2 (round (offline t_1700000003))] =
  own 2 [Connect 1 (Ok tt); Resume 1 (round (offline t_1700000000));
         Connect 2 (Ok tt); Resume 2 (round (offline t_1700000003))] /\
  sent_on 2
    (trace (proc (serve
       [Connect 1 (Ok tt); Resume 1 (round (quote f_102_5 t_1700000000));
        Connect 2 (Ok tt); Resume 2 (round (offline t_1700000003))]
       server_start))) = ["102.50"] /\
  sent_on 2
    (trace (proc (serve
       [Connect 1 (Ok tt); Resume 1 (round (offline t_1700000000));
        Connect 2 (Ok tt); Resume 2 (round (offline t_1700000003))]
       server_start))) = ["0.00"] /\
  sent_on 2
    (trace (proc (serve
       [Connect 1 (Ok tt); Resume 1 (round (quote f_102_5 t_1700000000));
        Connect 2 (Ok tt); Resume 2 (round (offline t_1700000003))]
       server_start))) <>
  sent_on 2
    (trace (proc (serve
       [Connect 1 (Ok tt); Resume 1 (round (offline t_1700000000));
        Connect 2 (Ok tt); Resume 2 (round (offline t_1700000003))]
       server_start))) /\
  is_live 1
    (serve [Connect 1 (Ok tt);
            Resume 1 (broken_round (quote f_102_5 t_1700000000) disconnect);
            Connect 2 (Ok tt)] server_start) = false /\
  current_price (stock_manager (proc (serve
    [Connect 1 (Ok tt);
     Resume 1 (broken_round (quote f_102_5 t_1700000000) disconnect);
     Connect 2 (Ok tt)] server_start))) = Some f_102_5 /\
  sent_on 2
    (trace (proc (serve
       [Connect 1 (Ok tt);
        Resume 1 (broken_round (quote f_102_5 t_1700000000) disconnect);
        Connect 2 (Ok tt); Resume 2 (round (offline t_1700000003))]
       server_start))) = ["102.50"].
Proof. repeat split; try (vm_compute; reflexivity). vm_compute. discriminate. Qed.

(** C1, amended.  The loops of all connections share the one
    [stock_manager] of the process, unset when the process starts and
    never reset: after a round of connection [a] fetched the price [P],
    and whatever connections were opened or ended and whatever fetches
    failed since, a round of a running connection [b] whose fetch fails
    falls back to [P]. *)
Theorem shared_last_known_price
  (sv : server) (a : nat) (wa : tick_env) (P : float)
  (mid : list request) (b : nat) (wb : tick_env) :
  is_live a sv = true ->
  fetch_succeeds (fetch wa) P ->
  quiet mid = true ->
  is_live b (serve mid (serve1 sv (Resume a wa))) = true ->
  fetch_fails (fetch wb) ->
  current_price (stock_manager (proc server_start)) = None /\
  current_price
    (stock_manager (proc (serve mid (serve1 sv (Resume a wa))))) = Some P /\
  sent_on b
    (trace (proc (serve1 (serve mid (serve1 sv (Resume a wa)))
                    (Resume b wb)))) =
  sent_on b (trace (proc (serve mid (serve1 sv (Resume a wa))))) ++
  [if truthy P then format_2f P else "0.00"%string].
Proof.
  intros La Ha Q Lb Hb. split; [reflexivity|].
  assert (current_price
            (stock_manager (proc (serve mid (serve1 sv (Resume a wa))))) =
          Some P) as C.
  { rewrite serve_quiet_manager by exact Q.
    rewrite serve1_resume_proc by exact La.
    rewrite guarded_tick_manager.
    unfold fetch_succeeds in Ha.
    rewrite <- (get_stock_price_result (fetch wa) (proc sv)) in Ha.
    destruct (get_stock_price_success _ _ _ Ha) as (_ & -> & _).
    reflexivity. }
  split; [exact C|].
  set (sv2 := serve mid (serve1 sv (Resume a wa))) in *.
  rewrite serve1_resume_proc by exact Lb.
  unfold guarded_tick. rewrite try_endpoint_sent_on.
  assert (snd ((tick b wb;; ret Pending) (proc sv2)) =
          snd (tick b wb (proc sv2))) as E
    by (unfold bind; now destruct (tick b wb (proc sv2)) as [[[]|e] s']).
  rewrite E, tick_sent_failure.
  - unfold fallback_frame. now rewrite C.
  - rewrite get_stock_price_result. exact Hb.
Qed.

Lemma shared_last_known_price_witness :
  current_price (stock_manager (proc server_start)) = None /\
  current_price
    (stock_manager
       (proc (serve [Resume 1 (broken_round (offline t_1700000003) disconnect);
                     Connect 2 (Ok tt); GetHealth]
                (serve1 (serve [Connect 1 (Ok tt)] server_start)
                   (Resume 1 (round (quote f_102_5 t_1700000000))))))) =
    Some f_102_5 /\
  sent_on 2
    (trace
       (proc (serve1
                (serve [Resume 1 (broken_round (offline t_1700000003)
                                    disconnect);
                        Connect 2 (Ok tt); GetHealth]
                   (serve1 (serve [Connect 1 (Ok tt)] server_start)
                      (Resume 1 (round (quote f_102_5 t_1700000000)))))
                (Resume 2 (round (no_data t_1700000003)))))) =
  sent_on 2
    (trace
       (proc (serve [Resume 1 (broken_round (offline t_1700000003) disconnect);
                     Connect 2 (Ok tt); GetHealth]
                (serve1 (serve [Connect 1 (Ok tt)] server_start)
                   (Resume 1 (round (quote f_102_5 t_1700000000))))))) ++
  [if truthy f_102_5 then format_2f f_102_5 else "0.00"%string].
Proof.
  apply (shared_last_known_price
           (serve [Connect 1 (Ok tt)] server_start) 1
           (round (quote f_102_5 t_1700000000)) f_102_5
           [Resume 1 (broken_round (offline t_1700000003) disconnect);
            Connect 2 (Ok tt); GetHealth]
           2 (round (no_data t_1700000003)));
    reflexivity.
Defined.

(** * The launcher *)

Import Launch.

(** ** [int] on the numeral of a number *)

Lemma digit_is_plain (c : ascii) :
  is_digit c = true ->
  int_space c = false /\ Ascii.eqb c "-" = false /\ Ascii.eqb c "+" = false /\
  Ascii.eqb c "_" = false.
Proof.
  destruct c as [[] [] [] [] [] [] [] []]; intros H;
    try discriminate H; repeat split.
Qed.

Ltac digit_value_lia :=
  match goal with
  | |- context [digit_value ?c] =>
      let v := eval vm_compute in (digit_value c) in
      change (digit_value c) with v
  end;
  cbn [N.mul N.add]; try reflexivity; f_equal; apply Pos.add_comm.

Ltac scan_step IH :=
  cbn [NilEmpty.string_of_uint scan_digits Pos.of_uint_acc];
  match goal with
  | |- context [is_digit ?c] => change (is_digit c) with true
  end;
  cbv iota;
  match goal with
  | |- context [Pos.of_uint_acc _ ?x] =>
      match goal with
      | |- context [scan_digits _ true ?a _] =>
          replace a with (N.pos x) by digit_value_lia
      end
  end;
  rewrite IH; cbn [String.length];
  f_equal; f_equal; f_equal; lia.

(** Reading the digits of a numeral after a digit computes what
    [Pos.of_uint_acc] computes. *)
Lemma scan_digits_acc (d : Decimal.uint) (acc : positive) (count : nat) :
  scan_digits (NilEmpty.string_of_uint d) true (N.pos acc) count =
  Some (N.pos (Pos.of_uint_acc d acc),
        count + String.length (NilEmpty.string_of_uint d), EmptyString).
Proof.
  revert acc count. induction d as [|d IH|d IH|d IH|d IH|d IH|d IH|d IH|d IH|d IH|d IH];
    intros acc count.
  - cbn. now rewrite Nat.add_0_r.
  - scan_step IH.
  - scan_step IH.
  - scan_step IH.
  - scan_step IH.
  - scan_step IH.
  - scan_step IH.
  - scan_step IH.
  - scan_step IH.
  - scan_step IH.
  - scan_step IH.
Qed.

Ltac scan_first :=
  cbn [NilEmpty.string_of_uint scan_digits Pos.of_uint];
  match goal with
  | |- context [is_digit ?c] => change (is_digit c) with true
  end;
  cbv iota;
  match goal with
  | |- context [Pos.of_uint_acc _ ?x] =>
      match goal with
      | |- context [scan_digits _ true ?a _] =>
          replace a with (N.pos x) by digit_value_lia
      end
  end;
  rewrite scan_digits_acc; cbn [String.length];
  f_equal; f_equal; f_equal; lia.

(** Reading a whole numeral computes [Pos.of_uint]. *)
Lemma scan_digits_numeral (d : Decimal.uint) (after : bool) (count : nat) :
  d <> Decimal.Nil ->
  scan_digits (NilEmpty.string_of_uint d) after 0%N count =
  Some (Pos.of_uint d,
        count + String.length (NilEmpty.string_of_uint d), EmptyString).
Proof.
  revert after count.
  induction d as [|d IH|d IH|d IH|d IH|d IH|d IH|d IH|d IH|d IH|d IH];
    intros after count NN; try scan_first.
  - now elim NN.
  - cbn [NilEmpty.string_of_uint scan_digits].
    change (is_digit "0") with true. cbv iota.
    change (10 * 0 + digit_value "0")%N with 0%N.
    destruct d; try (rewrite IH by discriminate; cbn [String.length Pos.of_uint];
                     f_equal; f_equal; f_equal; lia).
    cbn. f_equal. f_equal. f_equal. lia.
Qed.

(** [int] reads the numeral of [n] back as [n], up to the limit on the
    number of digits. *)
Lemma py_int_decimal (n : N) :
  String.length (decimal n) <= int_max_str_digits ->
  py_int (decimal n) = Ok (Z.of_N n).
Proof.
  intros L. unfold py_int.
  pose proof (decimal_not_empty n) as NE.
  pose proof (all_digits_string_of_uint (N.to_uint n)) as AD.
  assert (N.to_uint n <> Decimal.Nil) as NN.
  { intros E. apply NE. unfold decimal. now rewrite E. }
  pose proof (scan_digits_numeral (N.to_uint n) false 0 NN) as SC.
  fold (decimal n) in AD, SC.
  destruct (decimal n) as [|c r] eqn:D; [now elim NE|].
  cbn [all_digits] in AD. apply andb_prop in AD as [Hc _].
  destruct (digit_is_plain c Hc) as (Hs & Hm & Hp & _).
  cbn [lstrip]. rewrite Hs.
  assert ((let (negative, numeral) :=
             match String c r with
             | String "-" rest => (true, rest)
             | String "+" rest => (false, rest)
             | _ => (false, String c r)
             end in
           match scan_digits numeral false 0%N 0 with
           | Some (n0, count, rest) =>
               if Nat.ltb int_max_str_digits count
               then Err (too_many_digits count)
               else if all_space rest then
                 Ok (if negative then (- Z.of_N n0)%Z else Z.of_N n0)
               else Err (invalid_literal (String c r))
           | None => Err (invalid_literal (String c r))
           end) =
          match scan_digits (String c r) false 0%N 0 with
          | Some (n0, count, rest) =>
              if Nat.ltb int_max_str_digits count
              then Err (too_many_digits count)
              else if all_space rest then Ok (Z.of_N n0)
              else Err (invalid_literal (String c r))
          | None => Err (invalid_literal (String c r))
          end) as E.
  { destruct c as [[] [] [] [] [] [] [] []];
      try discriminate Hm; try discriminate Hp; reflexivity. }
  rewrite E, SC. cbn [all_space Nat.add].
  apply Nat.ltb_ge in L. rewrite L.
  change (Pos.of_uint (N.to_uint n)) with (N.of_uint (N.to_uint n)).
  now rewrite DecimalN.Unsigned.of_to.
Qed.

(** Whatever [int] raises is a [ValueError]. *)
Lemma py_int_error (s : string) (e : exn) :
  py_int s = Err e -> exc_type e = ValueError.
Proof.
  unfold py_int.
  destruct (match lstrip s with
            | String "-" rest => (true, rest)
            | String "+" rest => (false, rest)
            | _ => (false, lstrip s)
            end) as [negative numeral].
  destruct (scan_digits numeral false 0%N 0) as [[[n count] rest]|];
    [destruct (Nat.ltb int_max_str_digits count);
     [|destruct (all_space rest)]|];
    intros H; try discriminate H; injection H as <-; reflexivity.
Qed.

(** ** The server thread *)

Ltac run_boot :=
  cbv beta iota zeta delta
    [run_fastapi b_try b_bind b_lift b_emit b_ret start_block
     session_contains session_set];
  cbn [fst snd boot_trace session_state negb].

Lemma ports_served_app (a b : list boot_event) :
  ports_served (a ++ b) = ports_served a ++ ports_served b.
Proof.
  induction a as [|ev a IH]; [reflexivity|].
  destruct ev; cbn [app ports_served]; now rewrite IH.
Qed.

(** When the port is a number, [uvicorn.run] is called once, with it. *)
Lemma run_fastapi_port
  (env : environ) (uvicorn_run : ext unit) (s : boot) (port : Z) :
  py_int (os_getenv_default env "WEBSOCKET_PORT" "8501") = Ok port ->
  exists tail,
    boot_trace (snd (run_fastapi env uvicorn_run s)) =
      boot_trace s ++ UvicornRun "0.0.0.0" port :: tail /\
    ports_served tail = [].
Proof.
  intros H. run_boot. rewrite H. run_boot.
  destruct uvicorn_run as [[]|e]; run_boot.
  - exists []. split; reflexivity.
  - destruct (isinstance e Exception); run_boot.
    + eexists. rewrite <- app_assoc. split; reflexivity.
    + exists []. split; reflexivity.
Qed.

(** X1.  The server thread serves on the port the environment gives:
    with [WEBSOCKET_PORT] unset, [uvicorn.run] is called once, for port
    8501; with [WEBSOCKET_PORT] set to the decimal numeral of a number
    [n], once, for port [n]. *)
Theorem run_fastapi_serves_configured_port
  (env : environ) (uvicorn_run : ext unit) (s : boot) :
  (env "WEBSOCKET_PORT" = None ->
   ports_served (boot_trace (snd (run_fastapi env uvicorn_run s))) =
   ports_served (boot_trace s) ++ [8501%Z]) /\
  (forall n : N,
     env "WEBSOCKET_PORT" = Some (decimal n) ->
     String.length (decimal n) <= int_max_str_digits ->
     ports_served (boot_trace (snd (run_fastapi env uvicorn_run s))) =
     ports_served (boot_trace s) ++ [Z.of_N n]).
Proof.
  split.
  - intros U.
    destruct (run_fastapi_port env uvicorn_run s 8501%Z) as (tail & -> & T).
    + unfold os_getenv_default. rewrite U. reflexivity.
    + rewrite ports_served_app. cbn [ports_served]. now rewrite T.
  - intros n U L.
    destruct (run_fastapi_port env uvicorn_run s (Z.of_N n)) as (tail & -> & T).
    + unfold os_getenv_default. rewrite U. now apply py_int_decimal.
    + rewrite ports_served_app. cbn [ports_served]. now rewrite T.
Qed.

Lemma run_fastapi_serves_configured_port_witness :
  ports_served
    (boot_trace (snd (run_fastapi (environ_of [("WEBSOCKET_PORT", "9000")])
                        (Ok tt) boot_start))) =
  ports_served (boot_trace boot_start) ++ [Z.of_N 9000].
Proof.
  apply (proj2 (run_fastapi_serves_configured_port
                  (environ_of [("WEBSOCKET_PORT", "9000")]) (Ok tt)
                  boot_start) 9000%N).
  - reflexivity.
  - apply Nat.leb_le. reflexivity.
Defined.

(** When [int] raises, the handler logs and nothing else happens. *)
Lemma run_fastapi_int_error
  (env : environ) (uvicorn_run : ext unit) (s : boot) (e : exn) :
  py_int (os_getenv_default env "WEBSOCKET_PORT" "8501") = Err e ->
  run_fastapi env uvicorn_run s =
    (Return tt,
     {| session_state := session_state s;
        boot_trace :=
          boot_trace s ++
          [BootLog ERROR ("FastAPI server error: " ++ exc_str e)%string] |}).
Proof.
  intros H. pose proof (py_int_error _ _ H) as V.
  assert (isinstance e Exception = true) as I
    by (unfold isinstance; now rewrite V).
  run_boot. rewrite H. run_boot. rewrite I. reflexivity.
Qed.

(** X2.  A value of [WEBSOCKET_PORT] that [int] does not accept (the
    empty string is one: the default stands in for an unset variable
    only) stops the thread before [uvicorn.run]: no server is started,
    one error record is logged, and [run_fastapi] returns. *)
Theorem run_fastapi_bad_port_starts_nothing
  (env : environ) (uvicorn_run : ext unit) (s : boot) (e : exn) :
  py_int (os_getenv_default env "WEBSOCKET_PORT" "8501") = Err e ->
  run_fastapi env uvicorn_run s =
    (Return tt,
     {| session_state := session_state s;
        boot_trace :=
          boot_trace s ++
          [BootLog ERROR ("FastAPI server error: " ++ exc_str e)%string] |}) /\
  ports_served (boot_trace (snd (run_fastapi env uvicorn_run s))) =
    ports_served (boot_trace s).
Proof.
  intros H. pose proof (run_fastapi_int_error env uvicorn_run s e H) as E.
  split; [exact E|]. rewrite E. cbn [snd boot_trace].
  rewrite ports_served_app. cbn [ports_served]. apply app_nil_r.
Qed.

Lemma run_fastapi_bad_port_starts_nothing_witness :
  ports_served
    (boot_trace (snd (run_fastapi (environ_of [("WEBSOCKET_PORT", "")])
                        (Ok tt) boot_start))) =
  ports_served (boot_trace boot_start).
Proof.
  apply (run_fastapi_bad_port_starts_nothing
           (environ_of [("WEBSOCKET_PORT", "")]) (Ok tt) boot_start
           (invalid_literal "")).
  reflexivity.
Defined.

Example ports_that_int_rejects :
  (exists e, py_int "8501.0" = Err e) /\ (exists e, py_int "0x2135" = Err e) /\
  (exists e, py_int "" = Err e) /\ (exists e, py_int "85 01" = Err e) /\
  py_int " 8_501 " = Ok 8501%Z /\ py_int "-1" = Ok (-1)%Z /\
  py_int "+08501" = Ok 8501%Z.
Proof. repeat split; try (eexists; reflexivity). Qed.

(** X3.  Whatever the environment holds, no [Exception] leaves
    [run_fastapi]: when [uvicorn.run] ends by returning or by raising
    an instance of [Exception], [run_fastapi] returns. *)
Theorem run_fastapi_returns
  (env : environ) (uvicorn_run : ext unit) (s : boot) :
  ext_within Exception uvicorn_run = true ->
  fst (run_fastapi env uvicorn_run s) = Return tt.
Proof.
  intros W.
  destruct (py_int (os_getenv_default env "WEBSOCKET_PORT" "8501"))
    as [port|e] eqn:P.
  - run_boot. rewrite P. run_boot.
    destruct uvicorn_run as [[]|e]; run_boot; [reflexivity|].
    cbn [ext_within] in W. rewrite W. reflexivity.
  - now rewrite (run_fastapi_int_error env uvicorn_run s e P).
Qed.

Lemma run_fastapi_returns_witness :
  fst (run_fastapi (environ_of [("WEBSOCKET_PORT", "http")])
         (Err (mk_exn RuntimeError "server stopped")) boot_start) =
  Return tt.
Proof.
  apply (run_fastapi_returns (environ_of [("WEBSOCKET_PORT", "http")])
           (Err (mk_exn RuntimeError "server stopped")) boot_start).
  reflexivity.
Defined.

(** ** The address given to the page *)

Lemma get_websocket_url_local (env : environ) :
  str_truthy (env "RAILWAY_PUBLIC_DOMAIN") = false ->
  str_truthy (env "RAILWAY_STATIC_URL") = false ->
  get_websocket_url env = "ws://localhost:8501/ws".
Proof. unfold get_websocket_url, os_getenv. now intros -> ->. Qed.

(** X4.  The page is sent to the local address exactly when neither
    [RAILWAY_PUBLIC_DOMAIN] nor [RAILWAY_STATIC_URL] holds a value that
    is not empty; a variable set to the empty string counts as unset. *)
Theorem websocket_url_local_iff (env : environ) :
  get_websocket_url env = "ws://localhost:8501/ws" <->
  str_truthy (env "RAILWAY_PUBLIC_DOMAIN") = false /\
  str_truthy (env "RAILWAY_STATIC_URL") = false.
Proof.
  destruct (str_truthy (env "RAILWAY_PUBLIC_DOMAIN")) eqn:D;
    [|destruct (str_truthy (env "RAILWAY_STATIC_URL")) eqn:U];
    [unfold get_websocket_url, os_getenv; rewrite ?D, ?U ..|].
  - split; [cbn; intros H; discriminate H | intros [H _]; discriminate H].
  - split; [cbn; intros H; discriminate H | intros [_ H]; discriminate H].
  - split; [auto|]. intros _. apply get_websocket_url_local; assumption.
Qed.

Lemma websocket_url_local_iff_witness :
  str_truthy (environ_of [("RAILWAY_STATIC_URL", "")] "RAILWAY_PUBLIC_DOMAIN") =
    false /\
  str_truthy (environ_of [("RAILWAY_STATIC_URL", "")] "RAILWAY_STATIC_URL") =
    false.
Proof.
  apply (proj1 (websocket_url_local_iff
                  (environ_of [("RAILWAY_STATIC_URL", "")]))).
  reflexivity.
Defined.

Example websocket_url_on_railway :
  get_websocket_url
    (environ_of [("RAILWAY_PUBLIC_DOMAIN", "belrise.up.railway.app");
                 ("RAILWAY_STATIC_URL", "static.railway.app");
                 ("WEBSOCKET_PORT", "9000")]) =
    "wss://belrise.up.railway.app/ws" /\
  get_websocket_url
    (environ_of [("RAILWAY_PUBLIC_DOMAIN", "");
                 ("RAILWAY_STATIC_URL", "static.railway.app")]) =
    "wss://static.railway.app/ws".
Proof. split; reflexivity. Qed.

(** X5.  The local address names port 8501 whatever [WEBSOCKET_PORT]
    says: when the variable holds another number (and no Railway
    variable is set), the server thread serves on that number and not
    on 8501, while the page is still sent to port 8501. *)
Theorem local_url_ignores_configured_port
  (env : environ) (uvicorn_run : ext unit) (s : boot) (port : Z) :
  str_truthy (env "RAILWAY_PUBLIC_DOMAIN") = false ->
  str_truthy (env "RAILWAY_STATIC_URL") = false ->
  py_int (os_getenv_default env "WEBSOCKET_PORT" "8501") = Ok port ->
  port <> 8501%Z ->
  get_websocket_url env = "ws://localhost:8501/ws" /\
  ports_served (boot_trace (snd (run_fastapi env uvicorn_run s))) =
    ports_served (boot_trace s) ++ [port].
Proof.
  intros D U P _. split.
  - now apply get_websocket_url_local.
  - destruct (run_fastapi_port env uvicorn_run s port P) as (tail & -> & T).
    rewrite ports_served_app. cbn [ports_served]. now rewrite T.
Qed.

Lemma local_url_ignores_configured_port_witness :
  get_websocket_url (environ_of [("WEBSOCKET_PORT", "9000")]) =
    "ws://localhost:8501/ws" /\
  ports_served
    (boot_trace (snd (run_fastapi (environ_of [("WEBSOCKET_PORT", "9000")])
                        (Ok tt) boot_start))) =
    ports_served (boot_trace boot_start) ++ [9000%Z].
Proof.
  apply (local_url_ignores_configured_port
           (environ_of [("WEBSOCKET_PORT", "9000")]) (Ok tt) boot_start
           9000%Z); try reflexivity.
  discriminate.
Defined.

(** ** The start-up block *)

Lemma threads_started_app (a b : list boot_event) :
  threads_started (a ++ b) = threads_started a + threads_started b.
Proof.
  induction a as [|ev a IH]; [reflexivity|].
  destruct ev; cbn [app threads_started]; now rewrite IH.
Qed.

(** One run of the block: it returns, it starts a thread exactly when
    the flag of its session is not set, and it sets that flag and no
    other. *)
Lemma start_block_effect (sid : nat) (s : boot) :
  fst (start_block sid s) = Return tt /\
  threads_started (boot_trace (snd (start_block sid s))) =
    threads_started (boot_trace s) + (if flagged_in s sid then 0 else 1) /\
  forall sid',
    flagged_in (snd (start_block sid s)) sid' =
    Nat.eqb sid' sid || flagged_in s sid'.
Proof.
  unfold flagged_in. run_boot.
  destruct (session_state s sid "fastapi_started") as [v|] eqn:F; run_boot.
  - repeat split; [lia|]. intros sid'.
    destruct (Nat.eqb sid' sid) eqn:E; [|reflexivity].
    apply Nat.eqb_eq in E. subst sid'. now rewrite F.
  - repeat split.
    + repeat rewrite threads_started_app. cbn [threads_started]. lia.
    + intros sid'. rewrite String.eqb_refl, andb_true_r.
      destruct (Nat.eqb sid' sid); reflexivity.
Qed.

Lemma script_runs_app (a b : list nat) (s : boot) :
  snd (script_runs (a ++ b) s) = snd (script_runs b (snd (script_runs a s))).
Proof.
  revert s. induction a as [|sid a IH]; intros s; [reflexivity|].
  cbn [app script_runs]. unfold b_bind.
  destruct (start_block_effect sid s) as (R & _).
  destruct (start_block sid s) as [[[]|e] s1]; [apply IH|discriminate R].
Qed.

Lemma script_runs_flagged (sids : list nat) (s : boot) (sid : nat) :
  flagged_in (snd (script_runs sids s)) sid =
  existsb (Nat.eqb sid) sids || flagged_in s sid.
Proof.
  revert s. induction sids as [|x sids IH]; intros s; [reflexivity|].
  cbn [script_runs existsb]. unfold b_bind.
  destruct (start_block_effect x s) as (R & _ & F).
  destruct (start_block x s) as [[[]|e] s1]; [|discriminate R].
  cbn [snd] in F. rewrite IH, F.
  destruct (Nat.eqb sid x), (existsb (Nat.eqb sid) sids); reflexivity.
Qed.

(** X6.  The flag that guards the start of the server thread belongs to
    the session: in any sequence of runs of the script, a run starts a
    thread exactly when it is the first run of its session.  A rerun in
    a session starts nothing; the first run of each further session
    starts one more thread. *)
Theorem thread_started_once_per_session (sids : list nat) (sid : nat) :
  threads_started
    (boot_trace (snd (script_runs (sids ++ [sid]) boot_start))) =
  threads_started (boot_trace (snd (script_runs sids boot_start))) +
  (if existsb (Nat.eqb sid) sids then 0 else 1).
Proof.
  rewrite script_runs_app. cbn [script_runs]. unfold b_bind.
  set (s := snd (script_runs sids boot_start)).
  destruct (start_block_effect sid s) as (R & T & _).
  pose proof (script_runs_flagged sids boot_start sid) as F. fold s in F.
  destruct (start_block sid s) as [[[]|e] s1]; [|discriminate R].
  cbn [snd b_ret] in *. rewrite T, F. cbn [flagged_in boot_start session_state].
  now rewrite orb_false_r.
Qed.

Example threads_of_two_sessions :
  threads_started
    (boot_trace (snd (script_runs [1; 1; 2; 1; 2] boot_start))) = 2.
Proof. reflexivity. Qed.

(** * The page *)

Import Page.

Ltac run_page :=
  cbv beta iota zeta delta
    [onopen onclose onerror init onvisibilitychange connectWebSocket
     reconnect_if_none set_status set_reconnectTimer setTimeout clearTimeout
     log updateDisplay
     priceData timeData lastPrice socket reconnectTimer status pending
     timers_made sockets_made console fst snd].

(** ** The variables of the chart *)

Lemma Forall_tl {A} (P : A -> Prop) (l : list A) :
  Forall P l -> Forall P (tl l).
Proof. intros H. destruct l; [exact H|]. now inversion H. Qed.

Lemma updateDisplay_chart_ok (v : float) (now : string) (p : page) :
  chart_ok p -> gt v zero = true -> chart_ok (updateDisplay v now p).
Proof.
  destruct p as [pd td lp so rt st pe tm sm co].
  intros (L & B & F & _) V. unfold chart_ok in *. run_page.
  cbn [priceData timeData lastPrice] in *. unfold maxDataPoints in *.
  assert (Forall (fun x => gt x zero = true) (pd ++ [v])) as F'
    by (apply Forall_app; split; [exact F|now constructor]).
  destruct (Nat.ltb 50 (List.length (pd ++ [v]))) eqn:O.
  - apply Nat.ltb_lt in O. rewrite length_app in O. cbn [List.length] in O.
    assert (List.length (tl (pd ++ [v])) = 50) as L1.
    { destruct (pd ++ [v]) eqn:E.
      - apply (f_equal (@List.length _)) in E. rewrite length_app in E.
        cbn in E. lia.
      - apply (f_equal (@List.length _)) in E. rewrite length_app in E.
        cbn in E. cbn. lia. }
    assert (List.length (tl (td ++ [now])) = 50) as L2.
    { destruct (td ++ [now]) eqn:E.
      - apply (f_equal (@List.length _)) in E. rewrite length_app in E.
        cbn in E. lia.
      - apply (f_equal (@List.length _)) in E. rewrite length_app in E.
        cbn in E. cbn. lia. }
    repeat split; [lia|lia|now apply Forall_tl|].
    intros v' [= <-]. exact V.
  - apply Nat.ltb_ge in O. rewrite length_app in O. cbn [List.length] in O.
    rewrite !length_app. cbn [List.length].
    repeat split; [lia|lia|exact F'|]. intros v' [= <-]. exact V.
Qed.

(** Only a frame taken for a price touches the variables of the chart. *)
Lemma dispatch_event_chart (wsUrl : string) (p : page) (ev : dom_event) :
  (forall data now, ev <> Message data now) ->
  priceData (dispatch_event wsUrl p ev) = priceData p /\
  timeData (dispatch_event wsUrl p ev) = timeData p /\
  lastPrice (dispatch_event wsUrl p ev) = lastPrice p.
Proof.
  intros NM. destruct p as [pd td lp so [rt|] st pe tm sm co];
    destruct ev as [|h created| |data now| | |[] closed];
    cbn [dispatch_event]; try (now elim (NM data now));
    try (destruct (is_pending h _); [destruct created|]);
    try (destruct so as [k|]; [destruct closed|]);
    run_page; auto.
Qed.

Lemma accepted_positive (data : string) (v : float) :
  accepted data = Some v -> gt v zero = true.
Proof.
  unfold accepted.
  destruct (negb (isNaN (parseFloat data)) && gt (parseFloat data) zero) eqn:C;
    intros H; [|discriminate H].
  injection H as <-. now apply andb_prop in C.
Qed.

Lemma onmessage_accepted (data now : string) (p : page) :
  onmessage data now p =
  match accepted data with
  | Some v => updateDisplay v now p
  | None => p
  end.
Proof.
  unfold onmessage, accepted.
  now destruct (negb (isNaN (parseFloat data)) && gt (parseFloat data) zero).
Qed.

Lemma dispatch_event_chart_ok (wsUrl : string) (p : page) (ev : dom_event) :
  chart_ok p -> chart_ok (dispatch_event wsUrl p ev).
Proof.
  intros I.
  assert ((exists data now, ev = Message data now) \/
          (forall data now, ev <> Message data now)) as [(data & now & ->)|NM]
    by (destruct ev; try (right; discriminate); left; eauto).
  - cbn [dispatch_event]. rewrite onmessage_accepted.
    destruct (accepted data) as [v|] eqn:A; [|exact I].
    apply updateDisplay_chart_ok; [exact I|]. now apply (accepted_positive data).
  - destruct (dispatch_event_chart wsUrl p ev NM) as (E1 & E2 & E3).
    unfold chart_ok. now rewrite E1, E2, E3.
Qed.

Lemma browse_chart_ok (wsUrl : string) (evs : list dom_event) (p : page) :
  chart_ok p -> chart_ok (browse wsUrl evs p).
Proof.
  revert p. induction evs as [|ev evs IH]; intros p I; [exact I|].
  cbn [browse fold_left]. apply IH. now apply dispatch_event_chart_ok.
Qed.

Lemma page_start_chart_ok : chart_ok page_start.
Proof.
  unfold chart_ok. cbn. repeat split; [lia|constructor|discriminate].
Qed.

(** X7.  Whatever the browser sends, in any order, the two arrays of
    the chart have the same length and never hold more than fifty
    points. *)
Theorem chart_arrays_bounded (wsUrl : string) (evs : list dom_event) :
  List.length (priceData (browse wsUrl evs page_start)) =
    List.length (timeData (browse wsUrl evs page_start)) /\
  List.length (priceData (browse wsUrl evs page_start)) <= 50.
Proof.
  destruct (browse_chart_ok wsUrl evs page_start page_start_chart_ok)
    as (L & B & _).
  split; assumption.
Qed.

(** X8.  The page never takes a frame for a price unless it reads as a
    number above zero: every point of the chart is above zero, and so
    is [lastPrice] once set, the divisor of the change in percent. *)
Theorem chart_prices_positive (wsUrl : string) (evs : list dom_event) :
  Forall (fun v => gt v zero = true)
    (priceData (browse wsUrl evs page_start)) /\
  (forall v, lastPrice (browse wsUrl evs page_start) = Some v ->
             gt v zero = true /\ isNaN v = false).
Proof.
  destruct (browse_chart_ok wsUrl evs page_start page_start_chart_ok)
    as (_ & _ & F & P).
  split; [exact F|]. intros v H. specialize (P v H). split; [exact P|].
  destruct v; try reflexivity. discriminate P.
Qed.

Lemma chart_prices_positive_witness :
  gt f_102_5 zero = true /\ isNaN f_102_5 = false.
Proof.
  apply (proj2 (chart_prices_positive "ws://localhost:8501/ws"
                  [DOMContentLoaded; Timeout 1 true; Open;
                   Message "102.50" "10:14:57"; Message "-3.10" "10:15:00"])
           f_102_5).
  reflexivity.
Defined.

(** ** What the chart holds *)

Lemma last_n_all {A} (n : nat) (l : list A) :
  List.length l <= n -> last_n n l = l.
Proof.
  intros H. unfold last_n.
  replace (List.length l - n) with 0 by lia. reflexivity.
Qed.

Lemma last_n_app {A} (n : nat) (l r : list A) :
  last_n n (last_n n l ++ r) = last_n n (l ++ r).
Proof.
  unfold last_n. set (k := List.length l - n).
  assert (k <= List.length l) as K by (subst k; lia).
  rewrite !length_app, length_skipn. fold k.
  replace (List.length l + List.length r - n)
    with ((List.length l - k + List.length r - n) + k) by (subst k; lia).
  rewrite <- skipn_skipn, (skipn_app k l r).
  replace (k - List.length l) with 0 by lia. reflexivity.
Qed.

Lemma last_n_push {A} (l : list A) (x : A) :
  List.length l <= 50 ->
  (if Nat.ltb 50 (List.length (l ++ [x])) then tl (l ++ [x]) else l ++ [x]) =
  last_n 50 (l ++ [x]).
Proof.
  intros H. unfold last_n. rewrite length_app. cbn [List.length].
  destruct (Nat.ltb 50 (List.length l + 1)) eqn:O.
  - apply Nat.ltb_lt in O.
    replace (List.length l + 1 - 50) with 1 by lia. reflexivity.
  - apply Nat.ltb_ge in O.
    replace (List.length l + 1 - 50) with 0 by lia. reflexivity.
Qed.

Lemma updateDisplay_prices (v : float) (now : string) (p : page) :
  List.length (priceData p) <= 50 ->
  priceData (updateDisplay v now p) = last_n 50 (priceData p ++ [v]) /\
  lastPrice (updateDisplay v now p) = Some v.
Proof.
  destruct p as [pd td lp so rt st pe tm sm co]. intros H.
  run_page. cbn [priceData] in H. unfold maxDataPoints.
  split; [now apply last_n_push|reflexivity].
Qed.

Lemma browse_cons
  (wsUrl : string) (ev : dom_event) (evs : list dom_event) (p : page) :
  browse wsUrl (ev :: evs) p = browse wsUrl evs (dispatch_event wsUrl p ev).
Proof. reflexivity. Qed.

Lemma browse_prices (wsUrl : string) (evs : list dom_event) (p : page) :
  chart_ok p ->
  priceData (browse wsUrl evs p) = last_n 50 (priceData p ++ prices_of evs) /\
  lastPrice (browse wsUrl evs p) =
    match rev (prices_of evs) with
    | [] => lastPrice p
    | v :: _ => Some v
    end.
Proof.
  revert p. induction evs as [|ev evs IH]; intros p I.
  - cbn [browse fold_left prices_of rev]. rewrite app_nil_r.
    split; [|reflexivity]. symmetry. apply last_n_all. apply I.
  - rewrite browse_cons.
    pose proof (dispatch_event_chart_ok wsUrl p ev I) as I'.
    destruct (IH _ I') as (E1 & E2). rewrite E1, E2. clear IH E1 E2.
    assert ((exists data now v, ev = Message data now /\ accepted data = Some v)
            \/ (prices_of (ev :: evs) = prices_of evs /\
                priceData (dispatch_event wsUrl p ev) = priceData p /\
                lastPrice (dispatch_event wsUrl p ev) = lastPrice p))
      as [(data & now & v & -> & A)|(EP & E1 & E2)].
    { destruct ev as [|h created| |data now| | |visible closed];
        try (right; split; [reflexivity|];
             match goal with
             | |- context [dispatch_event _ _ ?ev] =>
                 destruct (dispatch_event_chart wsUrl p ev) as (E1 & _ & E2);
                 [discriminate|split; assumption]
             end).
      destruct (accepted data) as [v|] eqn:A.
      - left. eauto.
      - right. cbn [prices_of dispatch_event].
        rewrite onmessage_accepted, A. auto. }
    + cbn [prices_of dispatch_event]. rewrite onmessage_accepted, A.
      destruct (updateDisplay_prices v now p) as (-> & ->); [apply I|].
      rewrite last_n_app, <- app_assoc. cbn [app]. split; [reflexivity|].
      cbn [rev]. destruct (rev (prices_of evs)); reflexivity.
    + rewrite EP, E1, E2. split; reflexivity.
Qed.

(** X9.  After any run of events the chart holds the last fifty of
    the prices the page took from the frames it got, oldest first, and
    [lastPrice] is the latest of them. *)
Theorem chart_holds_last_prices (wsUrl : string) (evs : list dom_event) :
  priceData (browse wsUrl evs page_start) = last_n 50 (prices_of evs) /\
  lastPrice (browse wsUrl evs page_start) =
    match rev (prices_of evs) with
    | [] => None
    | v :: _ => Some v
    end.
Proof. apply (browse_prices wsUrl evs page_start page_start_chart_ok). Qed.

(** ** Frames that are not prices *)

(** Rounding keeps the sign: the nearest number to a quotient that is
    not above zero is not above zero. *)
Lemma nearest_negative (num den : positive) :
  gt (nearest true num den) zero = false.
Proof.
  unfold nearest, SFdiv.
  destruct (SFdiv_core_binary prec emax (Z.pos num) 0 (Z.pos den) 0)
    as [[mz ez] lz].
  unfold binary_round_aux.
  destruct (shr_fexp prec emax mz ez lz) as [mrs' e'].
  destruct (shr_fexp prec emax
              (round_nearest_even (shr_m mrs') (loc_of_shr_record mrs'))
              e' loc_Exact) as [mrs'' e''].
  destruct (shr_m mrs''); [reflexivity| |reflexivity].
  destruct (Z.leb e'' (emax - prec)); reflexivity.
Qed.

(** A literal after a minus sign is never taken for a price. *)
Lemma parse_unsigned_negative (s : string) :
  negb (isNaN (parse_unsigned true s)) && gt (parse_unsigned true s) zero =
  false.
Proof.
  unfold parse_unsigned.
  destruct (String.prefix "Infinity" s); [reflexivity|].
  destruct (take_digits s 0%N 0) as [[iv ic] ai].
  destruct (match ai with
            | String "." r => take_digits r iv 0
            | _ => (iv, 0, ai)
            end) as [[m fc] af].
  destruct (Nat.eqb (ic + fc) 0); [reflexivity|].
  unfold of_decimal. destruct m as [|m]; [reflexivity|].
  destruct (0 <=? exponent_part af - Z.of_nat fc)%Z;
    rewrite nearest_negative; apply andb_false_r.
Qed.

Lemma accepted_minus (rest : string) : accepted (String "-" rest) = None.
Proof.
  unfold accepted, parseFloat. cbn [skip_space].
  change (js_space "-") with false. cbv iota.
  now rewrite parse_unsigned_negative.
Qed.

(** The text in the format [.2f] of a float that does not show as a
    price is not taken for one. *)
Lemma accepted_format_2f (x : float) :
  shows_as_price x = false -> accepted (format_2f x) = None.
Proof.
  destruct x as [[]|[]| |[] m e]; cbn [shows_as_price format_2f];
    intros H; try reflexivity.
  - unfold fixed2. cbn [sign_prefix append]. apply accepted_minus.
  - apply N.ltb_ge in H. replace (hundredths m e) with 0%N by lia.
    reflexivity.
Qed.

(** X10.  The page ignores every frame the server writes for a float
    that does not read as a positive amount: not a number, an infinity,
    a zero, a negative number, a positive number below half a
    hundredth.  Such a frame changes nothing in the page. *)
Theorem page_ignores_frames_without_price
  (x : float) (now : string) (p : page) :
  shows_as_price x = false ->
  onmessage (format_2f x) now p = p.
Proof.
  intros H. rewrite onmessage_accepted. now rewrite accepted_format_2f.
Qed.

Lemma page_ignores_frames_without_price_witness :
  onmessage (format_2f zero) "10:15:00"
    (browse "ws://localhost:8501/ws"
       [DOMContentLoaded; Timeout 1 true; Open; Message "102.50" "10:14:57"]
       page_start) =
  browse "ws://localhost:8501/ws"
    [DOMContentLoaded; Timeout 1 true; Open; Message "102.50" "10:14:57"]
    page_start.
Proof.
  apply (page_ignores_frames_without_price zero "10:15:00"
           (browse "ws://localhost:8501/ws"
              [DOMContentLoaded; Timeout 1 true; Open;
               Message "102.50" "10:14:57"] page_start)).
  reflexivity.
Defined.

Example page_takes_a_price :
  priceData (browse "ws://localhost:8501/ws"
               [DOMContentLoaded; Timeout 1 true; Open;
                Message "102.50" "10:14:57"; Message "0.00" "10:15:00";
                Message "nan" "10:15:03"; Message "101.25" "10:15:06"]
               page_start) = [f_102_5; f_101_25].
Proof. vm_compute. reflexivity. Qed.

(** X11.  A round of the loop that reports no positive amount leaves
    the page untouched: the one frame it sends, for a fetched price
    that does not show as one, or as the fallback when the fetch fails
    and the manager holds no price that shows as one, is ignored by the
    page. *)
Theorem round_without_price_leaves_page
  (ws : nat) (w : tick_env) (s : process) (now : string) (p : page) :
  (exists P, fst (get_stock_price (fetch w) s) = Return (Some P) /\
             shows_as_price P = false) \/
  (fst (get_stock_price (fetch w) s) = Return None /\
   forall L, current_price (stock_manager s) = Some L ->
             shows_as_price L = false) ->
  exists frame,
    sent_on ws (trace (snd (tick ws w s))) = sent_on ws (trace s) ++ [frame] /\
    onmessage frame now p = p.
Proof.
  intros [(P & G & H)|(G & H)].
  - exists (format_2f P). split; [now apply tick_sent_success|].
    rewrite onmessage_accepted. now rewrite accepted_format_2f.
  - exists (fallback_frame (stock_manager s)).
    split; [now apply tick_sent_failure|].
    rewrite onmessage_accepted. unfold fallback_frame.
    destruct (current_price (stock_manager s)) as [L|]; [|reflexivity].
    destruct (truthy L); [|reflexivity].
    now rewrite accepted_format_2f by (now apply H).
Qed.

Lemma round_without_price_leaves_page_witness :
  exists frame,
    sent_on 1 (trace (snd (tick 1 (round (no_data t_1700000000))
                             process_start))) =
      sent_on 1 (trace process_start) ++ [frame] /\
    onmessage frame "10:15:00" page_start = page_start.
Proof.
  apply (round_without_price_leaves_page
           1 (round (no_data t_1700000000)) process_start "10:15:00"
           page_start).
  right. split; [reflexivity|]. intros L H. discriminate H.
Defined.

(** ** Reconnecting *)

Lemma attempts_app (a b : list js_event) :
  attempts (a ++ b) = attempts a + attempts b.
Proof.
  induction a as [|ev a IH]; [reflexivity|].
  destruct ev; cbn [app attempts]; now rewrite IH.
Qed.

Lemma without_shorter (h : nat) (l : list (nat * nat)) :
  existsb (fun t => Nat.eqb (fst t) h) l = true ->
  List.length (without h l) < List.length l.
Proof.
  unfold without. induction l as [|t l IH]; [discriminate|].
  cbn [existsb filter List.length].
  destruct (Nat.eqb (fst t) h); cbn [negb orb List.length].
  - intros _. pose proof (filter_length_le
                            (fun t0 => negb (Nat.eqb (fst t0) h)) l). lia.
  - intros H. specialize (IH H). lia.
Qed.

Lemma browse_app (wsUrl : string) (a b : list dom_event) (p : page) :
  browse wsUrl (a ++ b) p = browse wsUrl b (browse wsUrl a p).
Proof. apply fold_left_app. Qed.

(** While [reconnectTimer] is set, an event other than an open socket
    sets no timer: it leaves the variable, and each socket asked for
    spends a pending timer. *)
Lemma dispatch_event_unopened (wsUrl : string) (p : page) (ev : dom_event) :
  reconnectTimer p <> None -> unopened ev = true ->
  reconnectTimer (dispatch_event wsUrl p ev) = reconnectTimer p /\
  timers_made (dispatch_event wsUrl p ev) = timers_made p /\
  attempts (console (dispatch_event wsUrl p ev)) +
    List.length (pending (dispatch_event wsUrl p ev)) <=
  attempts (console p) + List.length (pending p).
Proof.
  destruct p as [pd td lp so [rt|] st pe tm sm co]; intros R U;
    [clear R|now elim R].
  destruct ev as [|h created| |data now| | |visible closed];
    try discriminate U; cbn [dispatch_event].
  - destruct (is_pending h _) eqn:P; [|auto].
    pose proof (without_shorter h pe P) as S.
    destruct created; run_page; repeat rewrite attempts_app;
      cbn [attempts]; repeat split; lia.
  - rewrite onmessage_accepted. destruct (accepted data); [|auto].
    run_page. repeat rewrite attempts_app. cbn [attempts].
    repeat split; lia.
  - run_page. repeat rewrite attempts_app. cbn [attempts].
    repeat split; lia.
  - run_page. repeat rewrite attempts_app. cbn [attempts].
    repeat split; lia.
Qed.

(** X12.  The page asks for a new socket after a close only once per
    opened socket: while [reconnectTimer] is set, and until a socket
    opens (or the page is shown again), no event sets a timer, so the
    sockets asked for are at most the timers still pending.  After the
    one reconnection has failed nothing is pending, and the page stays
    disconnected. *)
Theorem no_reconnect_until_open
  (wsUrl : string) (evs : list dom_event) (p : page) :
  reconnectTimer p <> None ->
  forallb unopened evs = true ->
  reconnectTimer (browse wsUrl evs p) = reconnectTimer p /\
  timers_made (browse wsUrl evs p) = timers_made p /\
  attempts (console (browse wsUrl evs p)) +
    List.length (pending (browse wsUrl evs p)) <=
  attempts (console p) + List.length (pending p).
Proof.
  revert p. induction evs as [|ev evs IH]; intros p R U.
  - cbn [browse fold_left]. repeat split; lia.
  - cbn [forallb] in U. apply andb_prop in U as [U1 U2].
    rewrite browse_cons.
    destruct (dispatch_event_unopened wsUrl p ev R U1) as (E1 & E2 & E3).
    destruct (IH (dispatch_event wsUrl p ev)) as (F1 & F2 & F3);
      [now rewrite E1|exact U2|].
    rewrite F1, F2, E1, E2. repeat split. lia.
Qed.

Lemma no_reconnect_until_open_witness :
  reconnectTimer
    (browse "ws://localhost:8501/ws" [Timeout 2 true; Error; Close; Close]
       (browse "ws://localhost:8501/ws"
          [DOMContentLoaded; Timeout 1 true; Error; Close] page_start)) =
  reconnectTimer
    (browse "ws://localhost:8501/ws"
       [DOMContentLoaded; Timeout 1 true; Error; Close] page_start).
Proof.
  apply (no_reconnect_until_open "ws://localhost:8501/ws"
           [Timeout 2 true; Error; Close; Close]
           (browse "ws://localhost:8501/ws"
              [DOMContentLoaded; Timeout 1 true; Error; Close] page_start)).
  - discriminate.
  - reflexivity.
Defined.

(** A server that is down when the page loads and still down five
    seconds later: two sockets asked for, then nothing pending. *)
Example page_gives_up_after_one_retry :
  let p := browse "ws://localhost:8501/ws"
             [DOMContentLoaded; Timeout 1 true; Error; Close;
              Timeout 2 true; Error; Close] page_start in
  attempts (console p) = 2 /\ pending p = [] /\ reconnectTimer p = Some 2 /\
  status p = Some ("🔴 Disconnected", "status disconnected").
Proof. vm_compute. repeat split. Qed.

(** An open socket's traffic leaves the timers alone. *)
Lemma dispatch_event_traffic (wsUrl : string) (p : page) (ev : dom_event) :
  traffic ev = true ->
  reconnectTimer (dispatch_event wsUrl p ev) = reconnectTimer p /\
  timers_made (dispatch_event wsUrl p ev) = timers_made p /\
  pending (dispatch_event wsUrl p ev) = pending p.
Proof.
  destruct p as [pd td lp so rt st pe tm sm co].
  destruct ev as [|h created| |data now| | |visible closed];
    intros T; try discriminate T; cbn [dispatch_event].
  - rewrite onmessage_accepted. destruct (accepted data); [|auto].
    run_page. auto.
  - run_page. auto.
Qed.

Lemma browse_traffic (wsUrl : string) (evs : list dom_event) (p : page) :
  forallb traffic evs = true ->
  reconnectTimer (browse wsUrl evs p) = reconnectTimer p /\
  timers_made (browse wsUrl evs p) = timers_made p /\
  pending (browse wsUrl evs p) = pending p.
Proof.
  revert p. induction evs as [|ev evs IH]; intros p T; [auto|].
  cbn [forallb] in T. apply andb_prop in T as [T1 T2]. rewrite browse_cons.
  destruct (dispatch_event_traffic wsUrl p ev T1) as (E1 & E2 & E3).
  destruct (IH (dispatch_event wsUrl p ev) T2) as (F1 & F2 & F3).
  rewrite F1, F2, F3. auto.
Qed.

(** X13.  A socket that opened and later closes is always followed by
    one reconnection: whatever frames and errors came in between, the
    close sets a new timer of five seconds for [connectWebSocket] and
    keeps its handle in [reconnectTimer]. *)
Theorem close_after_open_schedules_reconnect
  (wsUrl : string) (mid : list dom_event) (p : page) :
  forallb traffic mid = true ->
  reconnectTimer (browse wsUrl (Open :: mid ++ [Close]) p) =
    Some (S (timers_made p)) /\
  In (S (timers_made p), 5000)
    (pending (browse wsUrl (Open :: mid ++ [Close]) p)) /\
  status (browse wsUrl (Open :: mid ++ [Close]) p) =
    Some ("🟡 Reconnecting...", "status reconnecting").
Proof.
  intros T. rewrite browse_cons, browse_app.
  set (p1 := dispatch_event wsUrl p Open).
  assert (reconnectTimer p1 = None /\ timers_made p1 = timers_made p)
    as (R1 & M1).
  { subst p1. destruct p as [pd td lp so [rt|] st pe tm sm co];
      cbn [dispatch_event]; run_page; auto. }
  destruct (browse_traffic wsUrl mid p1 T) as (R2 & M2 & _).
  rewrite R1 in R2. rewrite M1 in M2. clear R1 M1 T.
  destruct (browse wsUrl mid p1) as [pd td lp so rt st pe tm sm co].
  cbn [reconnectTimer timers_made] in R2, M2. subst rt tm.
  cbn [browse fold_left dispatch_event]. run_page.
  repeat split. apply in_or_app. right. left. reflexivity.
Qed.

Lemma close_after_open_schedules_reconnect_witness :
  reconnectTimer
    (browse "ws://localhost:8501/ws"
       (Open :: [Message "102.50" "10:14:57"; Error] ++ [Close])
       (browse "ws://localhost:8501/ws" [DOMContentLoaded; Timeout 1 true]
          page_start)) =
  Some (S (timers_made
             (browse "ws://localhost:8501/ws"
                [DOMContentLoaded; Timeout 1 true] page_start))).
Proof.
  apply (close_after_open_schedules_reconnect "ws://localhost:8501/ws"
           [Message "102.50" "10:14:57"; Error]
           (browse "ws://localhost:8501/ws" [DOMContentLoaded; Timeout 1 true]
              page_start)).
  reflexivity.
Defined.

(** * More on the loop and the status check *)

Lemma get_stock_price_returns (w : fetch_env) (s : process) :
  fetch_errors_within Exception w = true ->
  exists r, fst (get_stock_price w s) = Return r.
Proof.
  unfold fetch_errors_within, ext_within.
  fetch_cases w; intros H; try (eexists; reflexivity);
    cbn [andb] in H; rewrite ?andb_true_r in H; congruence.
Qed.

(** A round that completes returns, having sent one frame. *)
Lemma tick_returns (ws : nat) (w : tick_env) (s : process) :
  completes w = true ->
  fst (tick ws w s) = Return tt /\
  List.length (sent_on ws (trace (snd (tick ws w s)))) =
    S (List.length (sent_on ws (trace s))).
Proof.
  unfold completes. intros C.
  destruct (send w) as [[]|e1] eqn:Sd; [|discriminate C].
  destruct (sleep w) as [[]|e2] eqn:Sl; [|discriminate C].
  destruct (get_stock_price_returns (fetch w) s C) as ([p|] & Hg).
  - split.
    + revert Hg. tick_cases ws w s cp; intros Hg; try discriminate Hg.
      destruct w as [wf wsd wsl]; cbn [send sleep] in Sd, Sl; subst wsd wsl.
      run_tick. reflexivity.
    + rewrite (tick_sent_success ws w s p Hg), length_app. cbn. lia.
  - split.
    + revert Hg. tick_cases ws w s cp; intros Hg; try discriminate Hg.
      destruct w as [wf wsd wsl]; cbn [send sleep] in Sd, Sl; subst wsd wsl.
      fallback_cases cp; run_tick; rewrite ?T; run_tick; reflexivity.
    + rewrite (tick_sent_failure ws w s Hg), length_app. cbn. lia.
Qed.

(** X14.  As long as the rounds complete, the loop makes one lookup
    and sends one frame per round, whether the lookups find a price or
    not, and goes on. *)
Theorem completed_rounds_one_fetch_one_frame
  (ws : nat) (script : list tick_env) (s : process) :
  forallb completes script = true ->
  fst (while_True (tick ws) script s) = Return Pending /\
  fetches (trace (snd (while_True (tick ws) script s))) =
    fetches (trace s) + List.length script /\
  List.length (sent_on ws (trace (snd (while_True (tick ws) script s)))) =
    List.length (sent_on ws (trace s)) + List.length script.
Proof.
  revert s. induction script as [|w script IH]; intros s C.
  - cbn. repeat split; lia.
  - cbn [forallb] in C. apply andb_prop in C as [C1 C2].
    cbn [while_True List.length]. unfold bind.
    destruct (tick_returns ws w s C1) as (R & L).
    pose proof (tick_fetches ws w s) as F.
    destruct (tick ws w s) as [[[]|e] s1]; [|discriminate R].
    cbn [snd] in L, F. destruct (IH s1 C2) as (R' & F' & L').
    rewrite R', F', L', F, L. repeat split; lia.
Qed.

Lemma completed_rounds_one_fetch_one_frame_witness :
  fst (while_True (tick 1)
         [round (quote f_102_5 t_1700000000); round (offline t_1700000003);
          round (no_data t_1700000003)] process_start) = Return Pending.
Proof.
  apply (completed_rounds_one_fetch_one_frame 1
           [round (quote f_102_5 t_1700000000); round (offline t_1700000003);
            round (no_data t_1700000003)] process_start).
  reflexivity.
Defined.

(** A round whose lookup raises nothing past the fetch and whose
    [send_text] raises [e] raises [e], right after the call. *)
Lemma tick_send_error (ws : nat) (w : tick_env) (e : exn) (s : process) :
  fetch_errors_within Exception (fetch w) = true ->
  send w = Err e ->
  exists s' frame,
    tick ws w s = (Raise e, s') /\
    last_event (trace s') = Some (SendText ws frame).
Proof.
  intros C Sd.
  destruct (get_stock_price_returns (fetch w) s C) as (r & Hg). revert Hg.
  tick_cases ws w s cp; intros Hg; try discriminate Hg;
    destruct w as [wf wsd wsl]; cbn [send] in Sd; subst wsd.
  - run_tick. eexists. eexists. split; [reflexivity|].
    unfold last_event. cbn [trace]. now rewrite rev_unit.
  - fallback_cases cp; run_tick; rewrite ?T; run_tick;
      (eexists; eexists; split; [reflexivity|]);
      unfold last_event; cbn [trace]; now rewrite rev_unit.
Qed.

Lemma while_True_completed_prefix
  (ws : nat) (pre rest : list tick_env) (s : process) :
  forallb completes pre = true ->
  exists s', while_True (tick ws) (pre ++ rest) s =
             while_True (tick ws) rest s'.
Proof.
  revert s. induction pre as [|w pre IH]; intros s C; [now exists s|].
  cbn [forallb] in C. apply andb_prop in C as [C1 C2].
  cbn [app while_True]. unfold bind.
  destruct (tick_returns ws w s C1) as (R & _).
  destruct (tick ws w s) as [[[]|e] s1]; [|discriminate R].
  apply IH. exact C2.
Qed.

(** While the rounds complete the loop goes on, and the rounds after
    them start from the state they leave. *)
Lemma while_True_completed_app
  (ws : nat) (pre rest : list tick_env) (s : process) :
  forallb completes pre = true ->
  fst (while_True (tick ws) pre s) = Return Pending /\
  while_True (tick ws) (pre ++ rest) s =
  while_True (tick ws) rest (snd (while_True (tick ws) pre s)).
Proof.
  revert s. induction pre as [|w pre IH]; intros s C; [now split|].
  cbn [forallb] in C. apply andb_prop in C as [C1 C2].
  cbn [app while_True]. unfold bind.
  destruct (tick_returns ws w s C1) as (R & _).
  destruct (tick ws w s) as [[[]|e] s1]; [|discriminate R].
  apply IH. exact C2.
Qed.

(** Whatever the lookup returned, the round has called [send_text]
    once, with a price. *)
Lemma tick_sent_one (ws : nat) (w : tick_env) (s : process) :
  fetch_errors_within Exception (fetch w) = true ->
  exists x : float,
    sent_on ws (trace (snd (tick ws w s))) =
    sent_on ws (trace s) ++ [format_2f x].
Proof.
  intros F. destruct (get_stock_price_returns (fetch w) s F) as ([p|] & Hg).
  - exists p. now apply tick_sent_success.
  - rewrite (tick_sent_failure ws w s Hg). unfold fallback_frame.
    destruct (current_price (stock_manager s)) as [l|]; [|now exists zero].
    destruct (truthy l); [now exists l|now exists zero].
Qed.

(** C7, as stated, fails for a client that leaves while the loop
    sleeps.  [asyncio.sleep] knows nothing of the socket and returns;
    the loop learns that the client is gone only when [send_text]
    raises in the next round.  Here the first round completes and the
    client leaves during its sleep: the endpoint still makes a second
    lookup, replaces the price and the time held by the manager, and
    calls [send_text] a second time before it ends. *)
Lemma disconnect_during_sleep_fetches_again :
  let asleep :=
    websocket_endpoint 1 (Ok tt) [round (quote f_102_5 t_1700000000)]
      process_start in
  let run :=
    websocket_endpoint 1 (Ok tt)
      [round (quote f_102_5 t_1700000000);
       broken_round (quote f_101_25 t_1700000003) disconnect]
      process_start in
  fst asleep = Return Pending /\
  last_event (trace (snd asleep)) = Some (Sleep 3) /\
  fetches (trace (snd asleep)) = 1 /\
  sent_on 1 (trace (snd asleep)) = ["102.50"%string] /\
  stock_manager (snd asleep) =
    {| current_price := Some f_102_5; last_update := Some t_1700000000 |} /\
  fst run = Return Done /\
  fetches (trace (snd run)) = 2 /\
  sent_on 1 (trace (snd run)) = ["102.50"%string; "101.25"%string] /\
  stock_manager (snd run) =
    {| current_price := Some f_101_25; last_update := Some t_1700000003 |} /\
  fetches (trace (snd run)) <> fetches (trace (snd asleep)) /\
  sent_on 1 (trace (snd run)) <> sent_on 1 (trace (snd asleep)) /\
  stock_manager (snd run) <> stock_manager (snd asleep).
Proof. cbv zeta. repeat split; discriminate. Qed.

(** C7, amended.  The loop learns that the connection is closed when
    [send_text] raises.  After rounds that completed, in the round [w]
    whose [send_text] raises [e]: the endpoint was waiting in the sleep
    of the round before; it runs nothing of the rounds that would
    follow [w], so there is no further lookup, no further send and no
    retry; it returns when [e] is an [Exception] and lets [e] through
    otherwise.  The round [w] itself has made its lookup before the
    send: since the sleep there is exactly one more lookup, the manager
    holds what that lookup left, and [send_text] was called exactly
    once more, with a price and not with an error text. *)
Theorem closed_connection_noticed_at_next_send
  (ws : nat) (pre : list tick_env) (w : tick_env) (post : list tick_env)
  (e : exn) (s : process) :
  forallb completes pre = true ->
  fetch_errors_within Exception (fetch w) = true ->
  send w = Err e ->
  let asleep := websocket_endpoint ws (Ok tt) pre s in
  let run := websocket_endpoint ws (Ok tt) (pre ++ w :: post) s in
  fst asleep = Return Pending /\
  run = websocket_endpoint ws (Ok tt) (pre ++ [w]) s /\
  fst run = (if isinstance e Exception then Return Done else Raise e) /\
  fetches (trace (snd run)) = S (fetches (trace (snd asleep))) /\
  stock_manager (snd run) =
    stock_manager (snd (get_stock_price (fetch w) (snd asleep))) /\
  exists x : float,
    sent_on ws (trace (snd run)) =
    sent_on ws (trace (snd asleep)) ++ [format_2f x].
Proof.
  intros C F Sd. cbv zeta. rewrite !websocket_endpoint_unfold.
  set (s0 := {| stock_manager := stock_manager s;
                trace := (trace s ++ [Accept ws]) ++
                         [Log INFO "WebSocket connection established"] |}).
  change (endpoint_open ws (Ok tt) s) with (Return tt, s0). cbv iota.
  destruct (while_True_completed_app ws pre (w :: post) s0 C) as (P & A).
  destruct (while_True_completed_app ws pre [w] s0 C) as (_ & A1).
  unfold try_except. rewrite A, A1. clear A A1.
  destruct (while_True (tick ws) pre s0) as [[c|e0] s1];
    cbn [fst snd] in *; [|discriminate P].
  injection P as ->. cbn [while_True]. unfold bind.
  pose proof (tick_fetches ws w s1) as Hf.
  pose proof (tick_manager ws w s1) as Hm.
  destruct (tick_sent_one ws w s1 F) as (x & Hx).
  destruct (tick_send_error ws w e s1 F Sd) as (s2 & frame & T & _).
  rewrite T in *. cbn [snd] in *.
  split; [reflexivity|]. split; [reflexivity|].
  cbn [dispatch endpoint_clauses].
  assert (isinstance e WebSocketDisconnect = true ->
          isinstance e Exception = true) as Sub.
  { destruct e as [k m]. destruct k; intros H; try discriminate H.
    reflexivity. }
  destruct (isinstance e WebSocketDisconnect) eqn:W;
    [rewrite (Sub eq_refl)|destruct (isinstance e Exception)];
    unfold bind, logger_info, logger_error, emit, ret, raise;
    cbn [fst snd trace stock_manager];
    rewrite ?fetches_app, ?sent_on_app; cbn [fetches sent_on];
    rewrite ?Nat.add_0_r, ?app_nil_r;
    (split; [reflexivity|]); (split; [exact Hf|]); (split; [exact Hm|]);
    now exists x.
Qed.

Lemma closed_connection_noticed_at_next_send_witness :
  let asleep :=
    websocket_endpoint 1 (Ok tt) [round (quote f_102_5 t_1700000000)]
      process_start in
  let run :=
    websocket_endpoint 1 (Ok tt)
      ([round (quote f_102_5 t_1700000000)] ++
       broken_round (quote f_101_25 t_1700000003) disconnect ::
       [round (offline t_1700000003)])
      process_start in
  fst asleep = Return Pending /\
  run = websocket_endpoint 1 (Ok tt)
          ([round (quote f_102_5 t_1700000000)] ++
           [broken_round (quote f_101_25 t_1700000003) disconnect])
          process_start /\
  fst run = (if isinstance disconnect Exception then Return Done
             else Raise disconnect) /\
  fetches (trace (snd run)) = S (fetches (trace (snd asleep))) /\
  stock_manager (snd run) =
    stock_manager
      (snd (get_stock_price
              (fetch (broken_round (quote f_101_25 t_1700000003) disconnect))
              (snd asleep))) /\
  exists x : float,
    sent_on 1 (trace (snd run)) =
    sent_on 1 (trace (snd asleep)) ++ [format_2f x].
Proof.
  apply (closed_connection_noticed_at_next_send
           1 [round (quote f_102_5 t_1700000000)]
           (broken_round (quote f_101_25 t_1700000003) disconnect)
           [round (offline t_1700000003)] disconnect process_start);
    reflexivity.
Defined.

(** X15.  How the endpoint ends when [send_text] raises [e] after
    rounds that completed: on a [WebSocketDisconnect] it logs at level
    info that the connection closed and returns; on any other
    [Exception] it logs the error and returns; on anything else (a
    cancellation) it logs nothing and [e] leaves the endpoint.  The
    first clause wins: a disconnect is never logged as an error. *)
Theorem endpoint_ends_by_exception_class
  (ws : nat) (pre : list tick_env) (w : tick_env) (post : list tick_env)
  (e : exn) (s : process) :
  forallb completes pre = true ->
  fetch_errors_within Exception (fetch w) = true ->
  send w = Err e ->
  (isinstance e WebSocketDisconnect = true ->
   fst (websocket_endpoint ws (Ok tt) (pre ++ w :: post) s) = Return Done /\
   last_event
     (trace (snd (websocket_endpoint ws (Ok tt) (pre ++ w :: post) s))) =
   Some (Log INFO "WebSocket connection closed")) /\
  (isinstance e WebSocketDisconnect = false ->
   isinstance e Exception = true ->
   fst (websocket_endpoint ws (Ok tt) (pre ++ w :: post) s) = Return Done /\
   last_event
     (trace (snd (websocket_endpoint ws (Ok tt) (pre ++ w :: post) s))) =
   Some (Log ERROR ("WebSocket error: " ++ exc_str e)%string)) /\
  (isinstance e Exception = false ->
   fst (websocket_endpoint ws (Ok tt) (pre ++ w :: post) s) = Raise e /\
   exists frame,
     last_event
       (trace (snd (websocket_endpoint ws (Ok tt) (pre ++ w :: post) s))) =
     Some (SendText ws frame)).
Proof.
  intros C F Sd.
  assert (exists s2 frame,
            last_event (trace s2) = Some (SendText ws frame) /\
            websocket_endpoint ws (Ok tt) (pre ++ w :: post) s =
            dispatch endpoint_clauses e s2) as (s2 & frame & L & E).
  { rewrite websocket_endpoint_unfold.
    set (s0 := {| stock_manager := stock_manager s;
                  trace := (trace s ++ [Accept ws]) ++
                           [Log INFO "WebSocket connection established"] |}).
    change (endpoint_open ws (Ok tt) s) with (Return tt, s0).
    cbv iota. unfold try_except.
    destruct (while_True_completed_prefix ws pre (w :: post) s0 C)
      as (s1 & ->).
    cbn [while_True]. unfold bind at 1.
    destruct (tick_send_error ws w e s1 F Sd) as (s2 & frame & -> & L).
    now exists s2, frame. }
  rewrite E. clear E. cbn [dispatch endpoint_clauses].
  assert (isinstance e WebSocketDisconnect = true ->
          isinstance e Exception = true) as Sub.
  { destruct e as [c m]. destruct c; intros H; try discriminate H.
    reflexivity. }
  destruct (isinstance e WebSocketDisconnect) eqn:W.
  - rewrite (Sub eq_refl).
    repeat split; try discriminate;
      unfold bind, logger_info, emit, ret, last_event; cbn [fst snd trace];
      now rewrite ?rev_unit.
  - destruct (isinstance e Exception) eqn:X.
    + repeat split; try discriminate;
        unfold bind, logger_error, emit, ret, last_event; cbn [fst snd trace];
        now rewrite ?rev_unit.
    + repeat split; try discriminate. exists frame. exact L.
Qed.

Lemma endpoint_ends_by_exception_class_witness :
  fst (websocket_endpoint 1 (Ok tt)
         ([round (quote f_102_5 t_1700000000)] ++
          broken_round (offline t_1700000003) disconnect :: [])
         process_start) = Return Done /\
  last_event
    (trace (snd (websocket_endpoint 1 (Ok tt)
                   ([round (quote f_102_5 t_1700000000)] ++
                    broken_round (offline t_1700000003) disconnect :: [])
                   process_start))) =
  Some (Log INFO "WebSocket connection closed").
Proof.
  apply (endpoint_ends_by_exception_class
           1 [round (quote f_102_5 t_1700000000)]
           (broken_round (offline t_1700000003) disconnect) [] disconnect
           process_start); reflexivity.
Defined.

(** ** The status check after fetches *)

Lemma after_fetches_failed (ws : list fetch_env) (s : process) :
  forallb (fun w => negb (finds_price w)) ws = true ->
  stock_manager (after_fetches ws s) = stock_manager s.
Proof.
  revert s. induction ws as [|w ws IH]; intros s Q; [reflexivity|].
  cbn [forallb] in Q. apply andb_prop in Q as [Q1 Q2].
  cbn [after_fetches fold_left]. fold (after_fetches ws).
  rewrite IH by exact Q2. apply get_stock_price_no_success.
  intros p Hp. rewrite get_stock_price_result in Hp.
  unfold finds_price in Q1. rewrite Hp in Q1. discriminate Q1.
Qed.

(** X16.  The status check reports the last fetch that found a price:
    after a fetch that returned [p] at clock reading [t], and any
    number of fetches since that found none, a request to [/health] is
    answered with [p] and with [t] when both are finite, the time not
    moving with the failed fetches; when [p] or [t] is NaN or infinite
    it is answered with status 500. *)
Theorem health_route_reports_last_success
  (w : fetch_env) (fails : list fetch_env) (s : process) (p : float) :
  fetch_succeeds w p ->
  forallb (fun f => negb (finds_price f)) fails = true ->
  fst (health_route (after_fetches (w :: fails) s)) =
  Return (if is_finite p && is_finite (time_time w)
          then JSONResponse 200
                 [("status", JString "healthy");
                  ("last_price", JNumber p);
                  ("last_update", JNumber (time_time w))]
          else PlainTextResponse 500 "Internal Server Error").
Proof.
  intros H Q. cbn [after_fetches fold_left]. fold (after_fetches fails).
  rewrite health_route_answer. cbn [fst].
  rewrite after_fetches_failed by exact Q.
  unfold fetch_succeeds in H. rewrite <- (get_stock_price_result w s) in H.
  destruct (get_stock_price_success _ _ _ H) as (_ & -> & _). reflexivity.
Qed.

Lemma health_route_reports_last_success_witness :
  fst (health_route
         (after_fetches
            (quote f_102_5 t_1700000000 ::
             [offline t_1700000003; no_data t_1700000003]) process_start)) =
  Return (JSONResponse 200
            [("status", JString "healthy");
             ("last_price", JNumber f_102_5);
             ("last_update", JNumber t_1700000000)]).
Proof.
  apply (health_route_reports_last_success
           (quote f_102_5 t_1700000000)
           [offline t_1700000003; no_data t_1700000003] process_start
           f_102_5); reflexivity.
Defined.

(** ** What the page reads from a frame *)

Ltac take_step IH :=
  cbn [NilEmpty.string_of_uint append take_digits Pos.of_uint_acc];
  match goal with
  | |- context [is_digit ?c] => change (is_digit c) with true
  end;
  cbv iota;
  match goal with
  | |- context [Pos.of_uint_acc _ ?x] =>
      match goal with
      | |- context [take_digits _ ?a (S _)] =>
          replace a with (N.pos x) by digit_value_lia
      end
  end;
  rewrite IH; cbn [String.length];
  f_equal; lia.

(** Reading the digits of a numeral goes on after it with the value
    [Pos.of_uint_acc] computes. *)
Lemma take_digits_acc
  (d : Decimal.uint) (rest : string) (acc : positive) (count : nat) :
  take_digits (NilEmpty.string_of_uint d ++ rest)%string (N.pos acc) count =
  take_digits rest (N.pos (Pos.of_uint_acc d acc))
    (count + String.length (NilEmpty.string_of_uint d)).
Proof.
  revert acc count.
  induction d as [|d IH|d IH|d IH|d IH|d IH|d IH|d IH|d IH|d IH|d IH];
    intros acc count; try take_step IH.
  cbn. now rewrite Nat.add_0_r.
Qed.

Ltac take_first :=
  cbn [NilEmpty.string_of_uint append take_digits Pos.of_uint];
  match goal with
  | |- context [is_digit ?c] => change (is_digit c) with true
  end;
  cbv iota;
  match goal with
  | |- context [Pos.of_uint_acc _ ?x] =>
      match goal with
      | |- context [take_digits _ ?a (S _)] =>
          replace a with (N.pos x) by digit_value_lia
      end
  end;
  rewrite take_digits_acc; cbn [String.length];
  f_equal; lia.

Lemma take_digits_numeral
  (d : Decimal.uint) (rest : string) (count : nat) :
  take_digits (NilEmpty.string_of_uint d ++ rest)%string 0%N count =
  take_digits rest (Pos.of_uint d)
    (count + String.length (NilEmpty.string_of_uint d)).
Proof.
  revert count.
  induction d as [|d IH|d IH|d IH|d IH|d IH|d IH|d IH|d IH|d IH|d IH];
    intros count; try take_first.
  - cbn. now rewrite Nat.add_0_r.
  - cbn [NilEmpty.string_of_uint append take_digits Pos.of_uint].
    change (is_digit "0") with true. cbv iota.
    change (10 * 0 + digit_value "0")%N with 0%N.
    rewrite IH. cbn [String.length]. f_equal. lia.
Qed.

Lemma digit_value_digit (d : N) :
  (d < 10)%N -> digit_value (digit d) = d /\ is_digit (digit d) = true.
Proof.
  intros H.
  assert (d = 0 \/ d = 1 \/ d = 2 \/ d = 3 \/ d = 4 \/ d = 5 \/ d = 6 \/
          d = 7 \/ d = 8 \/ d = 9)%N as D by lia.
  repeat (destruct D as [->|D]; [split; reflexivity|]). subst.
  split; reflexivity.
Qed.

(** The unsigned text of a count of hundredths reads as that count
    times ten to the minus two. *)
Lemma parse_unsigned_hundredths (negative : bool) (h : N) :
  parse_unsigned negative
    (decimal (h / 100) ++ "." ++ two_digits (h mod 100))%string =
  of_decimal negative h (-2).
Proof.
  unfold parse_unsigned.
  pose proof (decimal_not_empty (h / 100)) as NE.
  pose proof (all_digits_string_of_uint (N.to_uint (h / 100))) as AD.
  fold (decimal (h / 100)) in AD.
  assert (String.prefix "Infinity"
            (decimal (h / 100) ++ "." ++ two_digits (h mod 100)) = false) as PI.
  { destruct (decimal (h / 100)) as [|c r]; [now elim NE|].
    cbn [all_digits] in AD. apply andb_prop in AD as [Hc _].
    cbn [append String.prefix].
    destruct c as [[] [] [] [] [] [] [] []]; try discriminate Hc;
      reflexivity. }
  rewrite PI. unfold decimal at 1.
  rewrite take_digits_numeral.
  change (Pos.of_uint (N.to_uint (h / 100)))
    with (N.of_uint (N.to_uint (h / 100))).
  rewrite DecimalN.Unsigned.of_to.
  cbn [append take_digits]. change (is_digit ".") with false. cbv iota.
  unfold two_digits. cbn [take_digits].
  assert ((h mod 100) / 10 < 10)%N as B1.
  { apply N.Div0.div_lt_upper_bound. pose proof (N.mod_lt h 100). lia. }
  assert ((h mod 100) mod 10 < 10)%N as B2 by (apply N.mod_lt; discriminate).
  destruct (digit_value_digit _ B1) as (V1 & D1).
  destruct (digit_value_digit _ B2) as (V2 & D2).
  rewrite D1, D2, V1, V2.
  replace (Nat.eqb (0 + String.length (NilEmpty.string_of_uint
                                          (N.to_uint (h / 100))) + 2) 0)
    with false by (symmetry; apply Nat.eqb_neq; lia).
  cbn [exponent_part Z.of_nat Pos.of_succ_nat Pos.succ Z.sub Z.add Z.opp].
  f_equal.
  pose proof (N.div_mod h 100). pose proof (N.div_mod (h mod 100) 10). lia.
Qed.

(** X17.  The page reads from the frame of a finite price exactly the
    count of hundredths the server wrote, as the nearest number to
    that count over a hundred, with the sign the server wrote. *)
Theorem page_reads_written_hundredths (s : bool) (m : positive) (e : Z) :
  parseFloat (format_2f (S754_finite s m e)) =
    of_decimal s (hundredths m e) (-2) /\
  parseFloat (format_2f (S754_zero s)) = S754_zero s.
Proof.
  split; [|destruct s; reflexivity].
  cbn [format_2f]. unfold fixed2, parseFloat.
  destruct s; cbn [sign_prefix append].
  - cbn [skip_space]. change (js_space "-") with false. cbv iota.
    apply parse_unsigned_hundredths.
  - pose proof (decimal_not_empty (hundredths m e / 100)) as NE.
    pose proof (all_digits_string_of_uint
                  (N.to_uint (hundredths m e / 100))) as AD.
    fold (decimal (hundredths m e / 100)) in AD.
    rewrite <- (parse_unsigned_hundredths false (hundredths m e)).
    destruct (decimal (hundredths m e / 100)) as [|c r]; [now elim NE|].
    cbn [all_digits] in AD. apply andb_prop in AD as [Hc _].
    cbn [append skip_space].
    destruct c as [[] [] [] [] [] [] [] []]; try discriminate Hc;
      reflexivity.
Qed.

Example page_reads_102_50 :
  parseFloat (format_2f f_102_5) = f_102_5 /\
  parseFloat (format_2f f_2_675) = of_decimal false 267 (-2) /\
  parseFloat (format_2f f_minus_1) = f_minus_1.
Proof. repeat split; vm_compute; reflexivity. Qed.
